(** * python-conway: Game of Life on a toroidal grid

    A shallow embedding of [conway/torroidal.py]: the wrap-around array
    [ToroidalArray], the [Grid] built from two levels of it, and the
    generation step [nextgen].

    Python integers are [Z].  Exceptions are values of [exn]; a function
    that may raise returns a [result].  The rows of a grid are mutable
    [ToroidalArray] objects: they live in a store indexed by location,
    a grid holds the locations of its rows, and every function that
    writes a row takes the store and returns the new one. *)

From stdpp Require Import base tactics option list numbers strings.
From Stdlib Require Import ZArith QArith Lia.

Local Open Scope Z_scope.

(** ** Exceptions and results *)

Inductive exn : Type :=
| ValueError (msg : string)
| ZeroDivisionError
| IndexError
| TypeError
| InvalidReference.   (* a location outside the store; no Python program reaches it *)

Inductive result (A : Type) : Type :=
| Ok (a : A)
| Raise (e : exn).
Arguments Ok {A} a.
Arguments Raise {A} e.

#[global] Instance result_ret : MRet result := fun _ a => Ok a.
#[global] Instance result_bind : MBind result := fun _ _ f m =>
  match m with
  | Ok a => f a
  | Raise e => Raise e
  end.

Definition is_Ok {A} (r : result A) : bool :=
  match r with Ok _ => true | Raise _ => false end.

(** ** LIVE and DEAD

    Cells are Python booleans.  [nextgen] stores the literals [0] and [1];
    [bool] is a subclass of [int] with [0 == False] and [1 == True], so
    they are the cells [DEAD] and [LIVE]. *)

Definition LIVE : bool := true.
Definition DEAD : bool := false.

(** ** Python lists *)

(** [len(l)] *)
Definition len {A} (l : list A) : Z := Z.of_nat (length l).

(** [a % b] on Python integers: raises on a zero divisor, otherwise the
    result has the sign of the divisor, as [Z.modulo]. *)
Definition py_mod (a b : Z) : result Z :=
  if b =? 0 then Raise ZeroDivisionError else Ok (a mod b).

(** Position designated by a plain list subscript [l[idx]]: a negative [idx]
    counts from the end, anything outside [-len, len) raises. *)
Definition list_position {A} (l : list A) (idx : Z) : result nat :=
  if (0 <=? idx) && (idx <? len l) then Ok (Z.to_nat idx)
  else if (- len l <=? idx) && (idx <? 0) then Ok (Z.to_nat (idx + len l))
  else Raise IndexError.

(** [l * n]: [n] copies of [l] one after the other, none when [n] is not
    positive. *)
Definition list_mul {A} (l : list A) (n : Z) : list A :=
  mjoin (replicate (Z.to_nat n) l).

(** [range(n)] *)
Definition range (n : Z) : list Z := seqZ 0 n.

(** [enumerate(l)] *)
Fixpoint enumerate_from {A} (i : Z) (l : list A) : list (Z * A) :=
  match l with
  | [] => []
  | a :: l' => (i, a) :: enumerate_from (i + 1) l'
  end.

Definition enumerate {A} (l : list A) : list (Z * A) := enumerate_from 0 l.

(** [max(...)] of a sequence of integers *)
Definition py_max (l : list Z) : result Z :=
  match l with
  | [] => Raise (ValueError "max() arg is an empty sequence")
  | a :: l' => Ok (foldl Z.max a l')
  end.

(** A plain list subscript [l[idx]] *)
Definition list_subscript {A} (l : list A) (idx : Z) : result A :=
  k ← list_position l idx;
  match l !! k with
  | Some v => Ok v
  | None => Raise IndexError
  end.

(** [l.insert(index, value)]: a negative index counts from the end, and
    an index beyond either end is brought back to that end. *)
Definition list_insert_at {A} (l : list A) (index : Z) (value : A) : list A :=
  let i := if index <? 0 then Z.max (index + len l) 0 else Z.min index (len l) in
  take (Z.to_nat i) l ++ value :: drop (Z.to_nat i) l.

(** [range(n)] for an attribute that may be [None] *)
Definition range_of (n : option Z) : result (list Z) :=
  match n with
  | Some n => Ok (range n)
  | None => Raise TypeError
  end.

(** [a < b] on floats.  A finite float is a rational number and the
    comparison of two floats is exact, so floats are taken in [Q]. *)
Definition float_lt (a b : Q) : bool := negb (Qle_bool b a).

Set Warnings "-register-all".

(** Arguments of [ToroidalArray(...)]: an object is a sequence of objects
    (any iterable that is neither [str] nor [bytes]), a text ([str] or
    [bytes]), or anything else. *)
Inductive pyobj (A : Type) : Type :=
| Atom (a : A)
| Text (t : string)
| Iter (items : list (pyobj A)).
Arguments Atom {A} a.
Arguments Text {A} t.
Arguments Iter {A} items.

(** Items of a [ToroidalArray]: an object as it was given, or a nested
    [ToroidalArray]. *)
Inductive item (A : Type) : Type :=
| Plain (o : pyobj A)
| Array (items : list (item A)).
Arguments Plain {A} o.
Arguments Array {A} items.

(** ** ToroidalArray

    The backing [_list] of an array is a Rocq list. *)

Module ToroidalArray.

(** [_wrapped_index]:
<<
    wrapped = -index % len(self)
    if wrapped:
        return len(self) - wrapped
    return 0
>> *)
Definition _wrapped_index {A} (self : list A) (index : Z) : result Z :=
  wrapped ← py_mod (- index) (len self);
  if negb (wrapped =? 0) then Ok (len self - wrapped) else Ok 0.

(** [__getitem__] *)
Definition getitem {A} (self : list A) (index : Z) : result A :=
  idx ← _wrapped_index self index;
  k ← list_position self idx;
  match self !! k with
  | Some v => Ok v
  | None => Raise IndexError
  end.

(** [__setitem__] *)
Definition setitem {A} (self : list A) (index : Z) (value : A) : result (list A) :=
  idx ← _wrapped_index self index;
  k ← list_position self idx;
  Ok (<[k := value]> self).

(** [__delitem__] *)
Definition delitem {A} (self : list A) (index : Z) : result (list A) :=
  idx ← _wrapped_index self index;
  k ← list_position self idx;
  Ok (delete k self).

(** [extend], inherited from [MutableSequence]: appends each value. *)
Definition extend {A} (self : list A) (values : list A) : list A :=
  self ++ values.

(** The replacement of one item by [__init__], when [recursive and depth]
    holds: [ToroidalArray(item, True, depth - 1)] for a sequence that is
    not a text, the item itself otherwise.  The nested call converts its
    own items unless its depth, [depth - 1], is 0. *)
Fixpoint convert {A} (depth : Z) (o : pyobj A) : item A :=
  match o with
  | Iter items =>
      Array (if negb (depth - 1 =? 0) then map (convert (depth - 1)) items
             else map Plain items)
  | _ => Plain o
  end.

(** [__init__]: the items of [ToroidalArray(seq, recursive, depth)] *)
Definition __init__ {A} (seq : list (pyobj A)) (recursive : bool) (depth : Z)
    : list (item A) :=
  if recursive && negb (depth =? 0) then map (convert depth) seq
  else map Plain seq.

(** [insert]: not wrapped, the plain [insert] of the list *)
Definition insert {A} (self : list A) (index : Z) (value : A) : list A :=
  list_insert_at self index value.

(** [__iter__] *)
Definition __iter__ {A} (self : list A) : list A := self.

(** [__add__] and [__radd__]; [other] is the list of the other operand. *)
Definition __add__ {A} (self other : list A) : list A := self ++ other.
Definition __radd__ {A} (self other : list A) : list A := other ++ self.


End ToroidalArray.

(** ** The store of row objects

    A location is the position of a row in the store; a new row goes to
    the end. *)

Abbreviation loc := nat (only parsing).
Abbreviation store := (list (list bool)) (only parsing).

Definition deref (s : store) (row : loc) : result (list bool) :=
  match s !! row with
  | Some l => Ok l
  | None => Raise InvalidReference
  end.

(** [ToroidalArray(seq, recursive=True, depth=1)] on a sequence of
    sequences of cells: [list(seq)], then every item is replaced by a new
    [ToroidalArray(item, True, 0)], which copies the item with [list(item)]
    and, its depth being 0, converts nothing further.  Each row is a new
    object, also when [seq] holds one list several times. *)
Fixpoint new_rows (s : store) (seq : list (list bool)) : store * list loc :=
  match seq with
  | [] => (s, [])
  | item :: rest =>
      let '(s', rows) := new_rows (s ++ [item]) rest in
      (s', length s :: rows)
  end.

(** ** Point *)

Module Point.

Record t : Type := mk { x : Z; y : Z }.

(** [__add__] *)
Definition add (self rhs : t) : t := mk (x self + x rhs) (y self + y rhs).

End Point.

#[global] Instance Point_eq_dec : EqDecision Point.t.
Proof. solve_decision. Defined.

(** ** Grid

    [width] and [height] are [None] when the attribute holds Python's
    [None]; [cells] is the outer array, the locations of the rows. *)

Module Grid.

Record t : Type := mk { width : option Z; height : option Z; cells : list loc }.

(** [v == n] for an attribute that may be [None] *)
Definition eq_int (v : option Z) (n : Z) : bool :=
  match v with
  | Some m => m =? n
  | None => false
  end.

(** Truth value of an attribute: [None] and [0] are false. *)
Definition truthy (v : option Z) : bool :=
  match v with
  | Some m => negb (m =? 0)
  | None => false
  end.

(** [len(row) for row in self.cells] *)
Definition row_len (s : store) (row : loc) : result Z :=
  l ← deref s row; Ok (len l).

(** The padding loop:
<<
    for row in self.cells:
        padding = min(0, max_width - len(row))
        row.extend([DEAD] * padding)
>> *)
Fixpoint pad_rows (s : store) (rows : list loc) (max_width : Z) : result store :=
  match rows with
  | [] => Ok s
  | row :: rest =>
      l ← deref s row;
      let padding := Z.min 0 (max_width - len l) in
      pad_rows (<[row := ToroidalArray.extend l (list_mul [DEAD] padding)]> s)
               rest max_width
  end.

(** [__post_init__], run by [Grid(width, height, cells)]. *)
Definition post_init (s : store) (width height : option Z)
    (cells : option (list loc)) : result (store * t) :=
  if eq_int width 0 || eq_int height 0 then
    Raise (ValueError "`width` and `height` must be greater than zero")
  else if bool_decide (cells = None) && negb (truthy width && truthy height) then
    Raise (ValueError "one of (`width` AND `height`) OR `cells` must be set")
  else
    match cells with
    | None =>
        match width, height with
        | Some w, Some h =>
            let '(s', rows) := new_rows s (list_mul [list_mul [DEAD] w] h) in
            Ok (s', mk width height rows)
        | _, _ => Raise TypeError
        end
    | Some rows =>
        let height' := len rows in
        if match height with Some h => negb (h =? height') | None => false end then
          Raise (ValueError "given `height` does not match actual height of `cells`")
        else
          widths ← mapM (row_len s) rows;
          max_width ← py_max widths;
          if match width with Some w => w <? max_width | None => false end then
            Raise (ValueError "given `width` does not match actual width of `cells`")
          else
            s' ← pad_rows s rows max_width;
            Ok (s', mk width height rows)
    end.

(** [from_2d_seq]: every cell goes through [bool(cell)], here [to_bool]. *)
Definition from_2d_seq {A} (to_bool : A → bool) (s : store)
    (seq : list (list A)) : result (store * t) :=
  let '(s', rows) := new_rows s (map (map to_bool) seq) in
  post_init s' None None (Some rows).

(** [__getitem__]: [self.cells[cell.y][cell.x]] *)
Definition getitem (s : store) (self : t) (cell : Point.t) : result bool :=
  row ← ToroidalArray.getitem (cells self) (Point.y cell);
  l ← deref s row;
  ToroidalArray.getitem l (Point.x cell).

(** [__setitem__]: [self.cells[cell.y][cell.x] = value] *)
Definition setitem (s : store) (self : t) (cell : Point.t) (value : bool)
    : result store :=
  row ← ToroidalArray.getitem (cells self) (Point.y cell);
  l ← deref s row;
  l' ← ToroidalArray.setitem l (Point.x cell) value;
  Ok (<[row := l']> s).

(** [randomize].  The random source is the sequence [rnd] of the floats
    that the successive calls of [random.random()] return, with the number
    [n] of calls made so far. *)
Fixpoint randomize_row (rnd : nat → Q) (k : Q) (s : store) (n : nat) (self : t)
    (y : Z) (xs : list Z) : result (store * nat) :=
  match xs with
  | [] => Ok (s, n)
  | x :: xs' =>
      s' ← setitem s self (Point.mk x y) (float_lt (rnd n) k);
      randomize_row rnd k s' (S n) self y xs'
  end.

Fixpoint randomize_rows (rnd : nat → Q) (k : Q) (s : store) (n : nat) (self : t)
    (ys : list Z) : result (store * nat) :=
  match ys with
  | [] => Ok (s, n)
  | y :: ys' =>
      xs ← range_of (width self);
      '(s', n') ← randomize_row rnd k s n self y xs;
      randomize_rows rnd k s' n' self ys'
  end.

Definition randomize (rnd : nat → Q) (k : Q) (s : store) (n : nat) (self : t)
    : result (store * nat) :=
  ys ← range_of (height self);
  randomize_rows rnd k s n self ys.

(** [__iter__]: the points of the live cells, row after row. *)
Fixpoint iter_row (y : Z) (cells : list (Z * bool)) : list Point.t :=
  match cells with
  | [] => []
  | (x, cell) :: cells' =>
      if cell then Point.mk x y :: iter_row y cells' else iter_row y cells'
  end.

Fixpoint iter_rows (s : store) (rows : list (Z * loc)) : result (list Point.t) :=
  match rows with
  | [] => Ok []
  | (y, row) :: rows' =>
      l ← deref s row;
      ps ← iter_rows s rows';
      Ok (iter_row y (enumerate l) ++ ps)
  end.

Definition __iter__ (s : store) (self : t) : result (list Point.t) :=
  iter_rows s (enumerate (cells self)).

(** [__len__]: [len(tuple(iter(self)))] *)
Definition __len__ (s : store) (self : t) : result Z :=
  ps ← __iter__ s self; Ok (len ps).

(** [__contains__ = __getitem__] *)
Definition __contains__ (s : store) (self : t) (cell : Point.t) : result bool :=
  getitem s self cell.

End Grid.

(** ** The generation step *)

(** [dirs] is a set of eight distinct points; [nextgen] only sums over it,
    so the order of the list does not matter. *)
Definition dirs : list Point.t :=
  map (fun '(x, y) => Point.mk x y)
      [(-1, -1); (-1, 0); (-1, 1); (0, -1); (0, 1); (1, -1); (1, 0); (1, 1)].

(** [sum(grid1[p + d] for d in ds)]: [True] counts 1 and [False] 0. *)
Fixpoint sum_neighbors (s : store) (grid1 : Grid.t) (p : Point.t)
    (ds : list Point.t) : result Z :=
  match ds with
  | [] => Ok 0
  | d :: ds' =>
      b ← Grid.getitem s grid1 (Point.add p d);
      n ← sum_neighbors s grid1 p ds';
      Ok (Z.b2z b + n)
  end.

(** The body of the two loops of [nextgen], at [p = Point(x, y)]. *)
Definition nextgen_cell (s : store) (grid1 grid2 : Grid.t) (p : Point.t)
    : result store :=
  live_neighbors ← sum_neighbors s grid1 p dirs;
  if (live_neighbors <? 2) || (live_neighbors >? 3) then
    Grid.setitem s grid2 p DEAD
  else if live_neighbors =? 3 then
    Grid.setitem s grid2 p LIVE
  else
    v ← Grid.getitem s grid1 p;
    Grid.setitem s grid2 p v.

(** [for x in range(len(row))] *)
Fixpoint nextgen_row (s : store) (grid1 grid2 : Grid.t) (y : Z) (xs : list Z)
    : result store :=
  match xs with
  | [] => Ok s
  | x :: xs' =>
      s' ← nextgen_cell s grid1 grid2 (Point.mk x y);
      nextgen_row s' grid1 grid2 y xs'
  end.

(** [for y, row in enumerate(grid1.cells)] *)
Fixpoint nextgen_rows (s : store) (grid1 grid2 : Grid.t) (rows : list (Z * loc))
    : result store :=
  match rows with
  | [] => Ok s
  | (y, row) :: rows' =>
      l ← deref s row;
      s' ← nextgen_row s grid1 grid2 y (range (len l));
      nextgen_rows s' grid1 grid2 rows'
  end.

Definition nextgen (s : store) (grid1 grid2 : Grid.t) : result (store * Grid.t) :=
  s' ← nextgen_rows s grid1 grid2 (enumerate (Grid.cells grid1));
  Ok (s', grid2).

(** ** Specification side: shapes, cells, separation

    The definitions below are not in the source; the theorems use them to
    say what the source does. *)

(** [g] has [h] rows in the store, each of [w] cells.  The attributes
    [width] and [height] are not consulted: no access to a cell reads
    them. *)
Definition has_dims (s : store) (g : Grid.t) (w h : Z) : bool :=
  (len (Grid.cells g) =? h) &&
  forallb (fun row => match s !! row with
                      | Some l => len l =? w
                      | None => false
                      end) (Grid.cells g).

(** The cell in column [x] of row [y], by position and without wrapping. *)
Definition cell (s : store) (g : Grid.t) (x y : Z) : option bool :=
  row ← Grid.cells g !! Z.to_nat y; l ← s !! row; l !! Z.to_nat x.

(** The store after [v] is put in column [x] of row [y] of [g]. *)
Definition write (s : store) (g : Grid.t) (x y : Z) (v : bool) : store :=
  match Grid.cells g !! Z.to_nat y with
  | Some row =>
      match s !! row with
      | Some l => <[row := <[Z.to_nat x := v]> l]> s
      | None => s
      end
  | None => s
  end.

(** The eight offsets of {-1,0,1} x {-1,0,1} other than (0,0). *)
Definition offsets : list (Z * Z) :=
  filter (fun d => d ≠ (0, 0)) (dx ← [-1; 0; 1]; dy ← [-1; 0; 1]; [(dx, dy)]).

(** Number of live cells among the eight neighbours of (x, y) on the
    [w] x [h] torus; a neighbour reached by several offsets counts once
    for each. *)
Definition live_count (s : store) (g : Grid.t) (w h x y : Z) : Z :=
  foldr (fun '(dx, dy) n =>
           Z.b2z (default false (cell s g ((x + dx) mod w) ((y + dy) mod h))) + n)
        0 offsets.

(** The positions of a [w] x [h] grid, row by row. *)
Definition positions (w h : Z) : list Point.t :=
  y ← range h; x ← range w; [Point.mk x y].

(** The loop body of [nextgen] run at each point of [ps] in turn. *)
Fixpoint nextgen_cells (s : store) (grid1 grid2 : Grid.t) (ps : list Point.t)
    : result store :=
  match ps with
  | [] => Ok s
  | p :: ps' => s' ← nextgen_cell s grid1 grid2 p; nextgen_cells s' grid1 grid2 ps'
  end.

(** The rule of the game: [v] is the state that a cell of state [c] with
    [n] live neighbours takes. *)
Definition life_rule (n : Z) (c v : bool) : Prop :=
  (n < 2 ∨ 3 < n → v = DEAD) ∧ (n = 3 → v = LIVE) ∧ (n = 2 → v = c).

(** The state that the rule gives to the cell (x, y) of [g]. *)
Definition next_state (s : store) (g : Grid.t) (w h x y : Z) : bool :=
  let n := live_count s g w h x y in
  if (n <? 2) || (n >? 3) then DEAD
  else if n =? 3 then LIVE
  else default DEAD (cell s g x y).

(** The store after the cells of [g2] at the points [ps] have been given,
    one after the other, the state that the rule gives them in [g1]. *)
Definition run_writes (s : store) (g1 g2 : Grid.t) (w h : Z)
    (ps : list Point.t) : store :=
  foldl (fun st p => write st g2 (Point.x p) (Point.y p)
                       (next_state st g1 w h (Point.x p) (Point.y p))) s ps.

(** The point [p] lies in the [w] x [h] rectangle. *)
Definition in_extent (w h : Z) (p : Point.t) : Prop :=
  0 ≤ Point.x p < w ∧ 0 ≤ Point.y p < h.

(** [g] and [h] share no row object, and no row object occurs twice in [h]. *)
Definition separate (g h : Grid.t) : Prop :=
  NoDup (Grid.cells h) ∧ Forall (fun row => row ∉ Grid.cells h) (Grid.cells g).

(** Largest length of the rows [rows]; 0 when there is no row. *)
Definition max_row_len (s : store) (rows : list loc) : Z :=
  foldr Z.max 0 (map (fun row => len (default [] (s !! row))) rows).

(** The conditions under which construction fails, as the specification
    lists them. *)
Definition invalid_dimension (width height : option Z) : bool :=
  Grid.eq_int width 0 || Grid.eq_int height 0.

Definition missing_dimension (width height : option Z)
    (cells : option (list loc)) : bool :=
  match cells with
  | None => negb (Grid.truthy width) || negb (Grid.truthy height)
  | Some _ => false
  end.

Definition height_mismatch (height : option Z) (cells : option (list loc)) : bool :=
  match cells, height with
  | Some rows, Some h => negb (h =? len rows)
  | _, _ => false
  end.

Definition width_mismatch (s : store) (width : option Z)
    (cells : option (list loc)) : bool :=
  match cells, width with
  | Some rows, Some w => w <? max_row_len s rows
  | _, _ => false
  end.

Definition listed_failure (s : store) (width height : option Z)
    (cells : option (list loc)) : bool :=
  invalid_dimension width height || missing_dimension width height cells ||
  height_mismatch height cells || width_mismatch s width cells.

(** The exception of a construction, check by check in the order of the
    specification; cells without a row are refused between the check of
    the height and that of the width. *)
Definition validation (s : store) (width height : option Z)
    (cells : option (list loc)) : option exn :=
  if invalid_dimension width height then
    Some (ValueError "`width` and `height` must be greater than zero")
  else if missing_dimension width height cells then
    Some (ValueError "one of (`width` AND `height`) OR `cells` must be set")
  else if height_mismatch height cells then
    Some (ValueError "given `height` does not match actual height of `cells`")
  else if bool_decide (cells = Some []) then
    Some (ValueError "max() arg is an empty sequence")
  else if width_mismatch s width cells then
    Some (ValueError "given `width` does not match actual width of `cells`")
  else None.

(** The error kinds that the specification names (its section 7), and the
    kind of each exception that the source raises for one of them. *)
Inductive error_kind : Type :=
| InvalidDimension
| MissingDimension
| DimensionMismatch
| EmptySequenceWrap
| UnsupportedOperation.

Definition kind_of (e : exn) : option error_kind :=
  match e with
  | ValueError msg =>
      if String.eqb msg "`width` and `height` must be greater than zero"
      then Some InvalidDimension
      else if String.eqb msg "one of (`width` AND `height`) OR `cells` must be set"
      then Some MissingDimension
      else if String.eqb msg "given `height` does not match actual height of `cells`"
      then Some DimensionMismatch
      else if String.eqb msg "given `width` does not match actual width of `cells`"
      then Some DimensionMismatch
      else None
  | ZeroDivisionError => Some EmptySequenceWrap
  | _ => None
  end.

(** [bool(n)] for an integer [n] *)
Definition py_bool (n : Z) : bool := negb (n =? 0).

(** The object that an item stands for: a nested array is the sequence
    of what its items stand for. *)
Fixpoint erase {A} (it : item A) : pyobj A :=
  match it with
  | Plain o => o
  | Array items => Iter (map erase items)
  end.

(** No sequence is left unconverted among the items, at any level. *)
Fixpoint converted {A} (it : item A) : bool :=
  match it with
  | Plain (Iter _) => false
  | Plain _ => true
  | Array items => forallb converted items
  end.

(** Number of levels of arrays in an item. *)
Fixpoint array_depth {A} (it : item A) : Z :=
  match it with
  | Plain _ => 0
  | Array items => 1 + foldr Z.max 0 (map array_depth items)
  end.

(** The cell at [p], taken by position, is live. *)
Definition is_live (s : store) (g : Grid.t) (p : Point.t) : Prop :=
  cell s g (Point.x p) (Point.y p) = Some LIVE.

#[global] Instance is_live_dec (s : store) (g : Grid.t) (p : Point.t) :
  Decision (is_live s g p).
Proof. unfold is_live. apply _. Defined.

(** From [s] to [s'] no row was added or removed, no row changed its
    length, and no row outside [g] changed at all. *)
Definition writes_within (g : Grid.t) (s s' : store) : Prop :=
  length s' = length s ∧
  ∀ row, length <$> s' !! row = length <$> s !! row ∧
         (row ∉ Grid.cells g → s' !! row = s !! row).

(** The live cells counted through the seven offsets other than [d]. *)
Definition others_count (s : store) (g : Grid.t) (w h x y : Z) (d : Z * Z) : Z :=
  foldr (fun '(dx, dy) n =>
           Z.b2z (default false (cell s g ((x + dx) mod w) ((y + dy) mod h))) + n)
        0 (filter (fun d' => d' ≠ d) offsets).

(** No row object of [g] is a row of [h]. *)
Definition disjoint_rows (g h : Grid.t) : Prop :=
  Forall (fun row => row ∉ Grid.cells h) (Grid.cells g).

(** A write at [p] lands on the cell (x, y) of [g]: same column, and the
    same row object. *)
Definition aliases (g : Grid.t) (x y : Z) (p : Point.t) : bool :=
  bool_decide (x = Point.x p ∧
               Grid.cells g !! Z.to_nat y = Grid.cells g !! Z.to_nat (Point.y p)).

(** The last point of [ps] whose write lands on the cell (x, y) of [g]. *)
Definition last_alias (g : Grid.t) (x y : Z) (ps : list Point.t) : option Point.t :=
  foldl (fun acc p => if aliases g x y p then Some p else acc) None ps.

(** ** Sample grids

    A store with the rows of two 3 x 3 grids: the blinker
<<
    . . .
    # # #
    . . .
>>
    in rows 0-2, and rows 3-5 all live. *)
Definition sample_store : store :=
  [[DEAD; DEAD; DEAD]; [LIVE; LIVE; LIVE]; [DEAD; DEAD; DEAD];
   [LIVE; LIVE; LIVE]; [LIVE; LIVE; LIVE]; [LIVE; LIVE; LIVE]].

Definition blinker : Grid.t := Grid.mk (Some 3) (Some 3) [0%nat; 1%nat; 2%nat].
Definition buffer : Grid.t := Grid.mk (Some 3) (Some 3) [3%nat; 4%nat; 5%nat].

(** A store with the rows of a 3 x 3 grid that the rule leaves as it is
    (four live cells, each with three live neighbours on the torus)
<<
    # # #
    # . .
    . . .
>>
    in rows 0-2, and a dead row 3; [folded] is a 3 x 3 grid whose three
    rows are that one object. *)
Definition still_store : store :=
  [[LIVE; LIVE; LIVE]; [LIVE; DEAD; DEAD]; [DEAD; DEAD; DEAD]; [DEAD; DEAD; DEAD]].

Definition still : Grid.t := Grid.mk (Some 3) (Some 3) [0%nat; 1%nat; 2%nat].
Definition folded : Grid.t := Grid.mk (Some 3) (Some 3) [3%nat; 3%nat; 3%nat].

(** One generation of the grid of rows [seq], written into a new
    [w] x [h] grid: the rows of the result. *)
Definition step_rows (seq : list (list Z)) (w h : Z) : result (list (list bool)) :=
  '(s1, grid1) ← Grid.from_2d_seq py_bool [] seq;
  '(s2, grid2) ← Grid.post_init s1 (Some w) (Some h) None;
  '(s3, grid3) ← nextgen s2 grid1 grid2;
  mapM (deref s3) (Grid.cells grid3).

(** ** Theorems *)

Import ToroidalArray.

Section WrappedIndex.
Context {A : Type}.
Implicit Types (self : list A) (i : Z).

Lemma len_pos self : self ≠ [] → 0 < len self.
Proof. destruct self; [done|]. intros _. unfold len. simpl. lia. Qed.

Lemma len_nonneg self : 0 ≤ len self.
Proof. unfold len. lia. Qed.

Lemma len_nil_inv self : len self = 0 → self = [].
Proof. destruct self; [done|]. unfold len. simpl. lia. Qed.

(** On a non-empty array the wrapped index is the residue of the index. *)
Lemma wrapped_index_mod self i :
  0 < len self → _wrapped_index self i = Ok (i mod len self).
Proof.
  intros Hn. unfold _wrapped_index, py_mod.
  destruct (Z.eqb_spec (len self) 0) as [?|_]; [lia|]. simpl.
  pose proof (Z.mod_pos_bound (- i) (len self) Hn) as Hb.
  destruct (Z.eqb_spec ((- i) mod len self) 0) as [H0|H0]; simpl; f_equal.
  - symmetry. apply Z.mod_opp_l_z in H0; [|lia].
    rewrite Z.opp_involutive in H0. exact H0.
  - apply Z.mod_unique_pos with (q := - ((- i) / len self) - 1); [lia|].
    pose proof (Z.div_mod (- i) (len self)). nia.
Qed.

Lemma list_position_in_range self k :
  0 ≤ k < len self → list_position self k = Ok (Z.to_nat k).
Proof.
  intros [H1 H2]. unfold list_position.
  destruct (Z.leb_spec 0 k); [|lia]. destruct (Z.ltb_spec k (len self)); [|lia].
  reflexivity.
Qed.

Lemma getitem_nonempty self i :
  0 < len self →
  ∃ v, self !! Z.to_nat (i mod len self) = Some v ∧ getitem self i = Ok v.
Proof.
  intros Hn. unfold getitem. rewrite (wrapped_index_mod _ _ Hn). simpl.
  pose proof (Z.mod_pos_bound i (len self) Hn) as Hb.
  rewrite list_position_in_range by lia. simpl.
  destruct (self !! Z.to_nat (i mod len self)) as [v|] eqn:E; [eauto|].
  apply lookup_ge_None in E. unfold len in *. lia.
Qed.

Lemma setitem_nonempty self i v :
  0 < len self →
  setitem self i v = Ok (<[Z.to_nat (i mod len self) := v]> self).
Proof.
  intros Hn. unfold setitem. rewrite (wrapped_index_mod _ _ Hn). simpl.
  pose proof (Z.mod_pos_bound i (len self) Hn) as Hb.
  rewrite list_position_in_range by lia. reflexivity.
Qed.

Lemma delitem_nonempty self i :
  0 < len self →
  delitem self i = Ok (delete (Z.to_nat (i mod len self)) self).
Proof.
  intros Hn. unfold delitem. rewrite (wrapped_index_mod _ _ Hn). simpl.
  pose proof (Z.mod_pos_bound i (len self) Hn) as Hb.
  rewrite list_position_in_range by lia. reflexivity.
Qed.

(** C2.  On a non-empty array of length [n], [_wrapped_index] returns for
    every integer [i], without raising, a value [r] of [0, n); the same [r]
    is returned for [i + n] and for [i - n]; [r] is [i] itself when
    [0 <= i < n]; and [r] is the value of the formula [n - w] if [w != 0]
    else [0], for [w = (-i) mod n]. *)
Theorem wrapped_index_total self i :
  self ≠ [] →
  ∃ r, _wrapped_index self i = Ok r ∧
       0 ≤ r < len self ∧
       _wrapped_index self (i + len self) = Ok r ∧
       _wrapped_index self (i - len self) = Ok r ∧
       (0 ≤ i < len self → r = i) ∧
       r = (let w := (- i) mod len self in if w =? 0 then 0 else len self - w).
Proof.
  intros Hne. pose proof (len_pos _ Hne) as Hn.
  exists (i mod len self). rewrite !wrapped_index_mod by done.
  split; [done|]. split; [by apply Z.mod_pos_bound|].
  split; [f_equal; rewrite <- (Z.mul_1_l (len self)) at 1; apply Z.mod_add; lia|].
  split.
  { f_equal. replace (i - len self) with (i + (-1) * len self) by lia.
    apply Z.mod_add. lia. }
  split; [intros Hi; by apply Z.mod_small|].
  pose proof (wrapped_index_mod self i Hn) as Hw.
  unfold _wrapped_index, py_mod in Hw.
  destruct (Z.eqb_spec (len self) 0); [lia|]. simpl in Hw. cbv zeta.
  destruct (Z.eqb_spec ((- i) mod len self) 0); simpl in *; congruence.
Qed.

(** C8.  On an array of length zero, [__getitem__], [__setitem__] and
    [__delitem__] raise [ZeroDivisionError] at every integer index; on a
    non-empty array none of the three raises, at any integer index. *)
Theorem empty_array_wrap_fails self i v :
  (len self = 0 →
     getitem self i = Raise ZeroDivisionError ∧
     setitem self i v = Raise ZeroDivisionError ∧
     delitem self i = Raise ZeroDivisionError) ∧
  (len self ≠ 0 →
     is_Ok (getitem self i) = true ∧
     is_Ok (setitem self i v) = true ∧
     is_Ok (delitem self i) = true).
Proof.
  split.
  - intros ->%len_nil_inv. done.
  - intros Hne. assert (0 < len self) as Hn by (unfold len in *; lia).
    destruct (getitem_nonempty self i Hn) as (b & _ & ->).
    by rewrite setitem_nonempty, delitem_nonempty.
Qed.

End WrappedIndex.

Lemma wrapped_index_total_witness :
  [true; false; true] ≠ [] ∧
  ∃ r, _wrapped_index [true; false; true] (-4) = Ok r ∧
       0 ≤ r < len [true; false; true] ∧
       _wrapped_index [true; false; true] (-4 + len [true; false; true]) = Ok r ∧
       _wrapped_index [true; false; true] (-4 - len [true; false; true]) = Ok r ∧
       (0 ≤ -4 < len [true; false; true] → r = -4) ∧
       r = (let w := (- -4) mod len [true; false; true] in
            if w =? 0 then 0 else len [true; false; true] - w).
Proof. split; [done|]. apply (wrapped_index_total [true; false; true] (-4)). done. Defined.

Lemma empty_array_wrap_fails_witness :
  (len (@nil bool) = 0 ∧
   getitem (@nil bool) 5 = Raise ZeroDivisionError ∧
   setitem (@nil bool) 5 LIVE = Raise ZeroDivisionError ∧
   delitem (@nil bool) 5 = Raise ZeroDivisionError) ∧
  (len [LIVE; DEAD] ≠ 0 ∧
   is_Ok (getitem [LIVE; DEAD] 5) = true ∧
   is_Ok (setitem [LIVE; DEAD] 5 DEAD) = true ∧
   is_Ok (delitem [LIVE; DEAD] 5) = true).
Proof.
  split.
  - split; [reflexivity|].
    apply (proj1 (empty_array_wrap_fails (@nil bool) 5 LIVE)). reflexivity.
  - split; [done|].
    apply (proj2 (empty_array_wrap_fails [LIVE; DEAD] 5 DEAD)). done.
Defined.

(** *** Construction of a grid *)

Lemma list_mul_singleton {A} (a : A) (n : Z) :
  list_mul [a] n = replicate (Z.to_nat n) a.
Proof.
  unfold list_mul. induction (Z.to_nat n) as [|k IH]; simpl; [done|].
  by rewrite IH.
Qed.

Lemma new_rows_app (s : store) (items : list (list bool)) :
  new_rows s items = (s ++ items, seq (length s) (length items)).
Proof.
  revert s. induction items as [|item rest IH]; intros s; simpl.
  - by rewrite app_nil_r.
  - rewrite IH, length_app, <- app_assoc. simpl.
    by rewrite Nat.add_1_r.
Qed.

Lemma mapM_row_len (s : store) (rows : list loc) :
  Forall (fun row => is_Some (s !! row)) rows →
  mapM (Grid.row_len s) rows =
    Ok (map (fun row => len (default [] (s !! row))) rows).
Proof.
  induction 1 as [|row rows [l Hl] _ IH]; [done|].
  change (mapM (Grid.row_len s) (row :: rows))
    with (Grid.row_len s row ≫= λ n, mapM (Grid.row_len s) rows ≫= λ k, mret (n :: k)).
  rewrite IH. unfold Grid.row_len, deref. rewrite Hl. simpl. by rewrite Hl.
Qed.

(** The padding is [min(0, ...)], never positive: no cell is ever appended. *)
Lemma pad_rows_id (s : store) (rows : list loc) (max_width : Z) :
  Forall (fun row => is_Some (s !! row)) rows →
  Grid.pad_rows s rows max_width = Ok s.
Proof.
  induction 1 as [|row rows [l Hl] _ IH]; [done|].
  simpl. unfold deref. rewrite Hl. simpl.
  rewrite list_mul_singleton.
  replace (Z.to_nat (Z.min 0 (max_width - len l))) with 0%nat by lia.
  unfold extend. simpl. rewrite app_nil_r.
  by rewrite list_insert_id.
Qed.

Lemma foldl_max_foldr (a : Z) (l : list Z) :
  0 ≤ a → Forall (fun n => 0 ≤ n) l →
  foldl Z.max a l = Z.max a (foldr Z.max 0 l).
Proof.
  intros Ha Hl. revert a Ha. induction Hl as [|b l Hb _ IH]; intros a Ha; simpl.
  - lia.
  - rewrite IH by lia. lia.
Qed.

Lemma py_max_row_lens (s : store) (row : loc) (rows : list loc) :
  py_max (map (fun row => len (default [] (s !! row))) (row :: rows)) =
    Ok (max_row_len s (row :: rows)).
Proof.
  unfold max_row_len. simpl. f_equal. apply foldl_max_foldr.
  - unfold len. lia.
  - apply Forall_map, Forall_true. intros r. unfold len. simpl. lia.
Qed.

(** Construction from cells, check by check. *)
Lemma post_init_cells (s : store) (width height : option Z) (rows : list loc) :
  Forall (fun row => is_Some (s !! row)) rows →
  Grid.post_init s width height (Some rows) =
    match validation s width height (Some rows) with
    | Some e => Raise e
    | None => Ok (s, Grid.mk width height rows)
    end.
Proof.
  intros Hrows. unfold Grid.post_init, validation, invalid_dimension.
  destruct (Grid.eq_int width 0 || Grid.eq_int height 0); [done|].
  cbn [bool_decide andb missing_dimension height_mismatch].
  rewrite bool_decide_eq_false_2 by done. cbn [andb].
  set (hm := match height with Some h => negb (h =? len rows) | None => false end).
  destruct hm; [done|].
  rewrite mapM_row_len by done.
  destruct rows as [|row rows]; [done|].
  rewrite bool_decide_eq_false_2 by done.
  cbn [mbind result_bind].
  rewrite py_max_row_lens. cbn [mbind result_bind width_mismatch].
  set (wm := match width with Some w => w <? max_row_len s (row :: rows) | None => false end).
  destruct wm; [done|].
  by rewrite pad_rows_id.
Qed.

(** Construction without cells. *)
Lemma post_init_no_cells (s : store) (width height : option Z) :
  Grid.post_init s width height None =
    match validation s width height None with
    | Some e => Raise e
    | None =>
        match width, height with
        | Some w, Some h =>
            Ok (s ++ replicate (Z.to_nat h) (replicate (Z.to_nat w) DEAD),
                Grid.mk width height (seq (length s) (Z.to_nat h)))
        | _, _ => Raise TypeError
        end
    end.
Proof.
  unfold Grid.post_init, validation, invalid_dimension, missing_dimension.
  destruct (Grid.eq_int width 0 || Grid.eq_int height 0); [done|].
  rewrite bool_decide_eq_true_2 by done. simpl.
  rewrite negb_andb.
  destruct (negb (Grid.truthy width) || negb (Grid.truthy height)) eqn:E; [done|].
  destruct width as [w|], height as [h|]; try done.
  rewrite !list_mul_singleton, new_rows_app. simpl.
  by rewrite length_replicate.
Qed.

(** C9.  For positive [w] and [h], [Grid(width=w, height=h)] succeeds and
    gives a grid of exactly [h] rows, each of exactly [w] cells, all dead.
    The rows are [h] distinct new objects, and no row that was in the store
    is changed. *)
Theorem new_grid_all_dead (s : store) (w h : Z) :
  0 < w → 0 < h →
  ∃ s' g, Grid.post_init s (Some w) (Some h) None = Ok (s', g) ∧
    Grid.width g = Some w ∧ Grid.height g = Some h ∧
    len (Grid.cells g) = h ∧
    Forall (fun row => ∃ l, s' !! row = Some l ∧ len l = w ∧
                            Forall (fun c => c = DEAD) l) (Grid.cells g) ∧
    NoDup (Grid.cells g) ∧
    (∀ row l, s !! row = Some l → s' !! row = Some l ∧ row ∉ Grid.cells g).
Proof.
  intros Hw Hh. rewrite post_init_no_cells.
  unfold validation, invalid_dimension, missing_dimension. simpl.
  destruct (Z.eqb_spec w 0); [lia|]. destruct (Z.eqb_spec h 0); [lia|]. simpl.
  eexists _, _. split; [reflexivity|]. simpl.
  split; [done|]. split; [done|].
  split; [unfold len; rewrite length_seq; lia|].
  split; [|split].
  - apply Forall_forall. intros row [Hlo Hhi]%elem_of_seq.
    exists (replicate (Z.to_nat w) DEAD).
    rewrite lookup_app_r by lia. rewrite lookup_replicate_2 by lia.
    split; [done|]. split; [unfold len; rewrite length_replicate; lia|].
    apply Forall_replicate. done.
  - apply NoDup_seq.
  - intros row l Hl. pose proof (lookup_lt_Some _ _ _ Hl) as Hlt.
    split; [by apply lookup_app_l_Some|].
    rewrite elem_of_seq. lia.
Qed.

Lemma new_grid_all_dead_witness :
  0 < 3 ∧ 0 < 2 ∧
  ∃ s' g, Grid.post_init [[LIVE]] (Some 3) (Some 2) None = Ok (s', g) ∧
    Grid.width g = Some 3 ∧ Grid.height g = Some 2 ∧
    len (Grid.cells g) = 2 ∧
    Forall (fun row => ∃ l, s' !! row = Some l ∧ len l = 3 ∧
                            Forall (fun c => c = DEAD) l) (Grid.cells g) ∧
    NoDup (Grid.cells g) ∧
    (∀ row l, [[LIVE]] !! row = Some l → s' !! row = Some l ∧ row ∉ Grid.cells g).
Proof.
  split; [lia|]. split; [lia|]. apply (new_grid_all_dead [[LIVE]] 3 2); lia.
Defined.

(** C7, as stated, fails on cells without a row and no declared dimension:
    none of the listed conditions holds, and the construction raises. *)
Lemma listed_failures_miss_empty_cells :
  listed_failure [] None None (Some []) = false ∧
  Grid.post_init [] None None (Some []) =
    Raise (ValueError "max() arg is an empty sequence").
Proof. split; reflexivity. Qed.

(** C7, amended.  Construction raises exactly when one of the listed
    conditions holds or the cells have no row.  The exception is that of
    the first check that fails, in the order: a zero width or height; no
    cells and a width or height that is absent or zero; cells and a
    declared height different from the number of rows; cells without a
    row; cells and a declared width less than the largest row length.
    Otherwise the construction succeeds. *)
Theorem post_init_fails_exactly (s : store) (width height : option Z)
    (cells : option (list loc)) :
  (∀ rows, cells = Some rows → Forall (fun row => is_Some (s !! row)) rows) →
  match validation s width height cells with
  | Some e => Grid.post_init s width height cells = Raise e
  | None => is_Ok (Grid.post_init s width height cells) = true
  end ∧
  is_Ok (Grid.post_init s width height cells) =
    negb (listed_failure s width height cells || bool_decide (cells = Some [])).
Proof.
  intros Hrows.
  assert (match validation s width height cells with
          | Some e => Grid.post_init s width height cells = Raise e
          | None => is_Ok (Grid.post_init s width height cells) = true
          end) as Hv.
  { destruct cells as [rows|].
    - rewrite post_init_cells by auto.
      by destruct (validation s width height (Some rows)).
    - rewrite post_init_no_cells.
      destruct (validation s width height None) eqn:Hval; [done|].
      revert Hval. unfold validation, invalid_dimension, missing_dimension.
      destruct width as [w|], height as [h|]; simpl; try done;
        rewrite ?orb_true_r, ?orb_false_r; repeat case_match; done. }
  split; [done|].
  revert Hv. unfold validation, listed_failure.
  destruct (invalid_dimension width height); [by intros ->|].
  destruct (missing_dimension width height cells); [by intros ->|].
  destruct (height_mismatch height cells); [by intros ->|].
  destruct (bool_decide (cells = Some [])).
  { intros ->. simpl. by rewrite orb_true_r. }
  destruct (width_mismatch s width cells); [by intros ->|].
  by intros ->.
Qed.

Lemma post_init_fails_exactly_witness :
  (∀ rows, Some [0%nat; 1%nat] = Some rows →
           Forall (fun row => is_Some ([[LIVE]; [DEAD; LIVE]] !! row)) rows) ∧
  match validation [[LIVE]; [DEAD; LIVE]] (Some 1) (Some 2) (Some [0%nat; 1%nat]) with
  | Some e =>
      Grid.post_init [[LIVE]; [DEAD; LIVE]] (Some 1) (Some 2) (Some [0%nat; 1%nat])
        = Raise e
  | None =>
      is_Ok (Grid.post_init [[LIVE]; [DEAD; LIVE]] (Some 1) (Some 2)
               (Some [0%nat; 1%nat])) = true
  end ∧
  is_Ok (Grid.post_init [[LIVE]; [DEAD; LIVE]] (Some 1) (Some 2) (Some [0%nat; 1%nat])) =
    negb (listed_failure [[LIVE]; [DEAD; LIVE]] (Some 1) (Some 2) (Some [0%nat; 1%nat])
          || bool_decide (Some [0%nat; 1%nat] = Some (@nil nat))).
Proof.
  assert (∀ rows, Some [0%nat; 1%nat] = Some rows →
            Forall (fun row => is_Some ([[LIVE]; [DEAD; LIVE]] !! row)) rows) as H.
  { intros rows [= <-]. repeat constructor; by eexists. }
  split; [exact H|].
  apply (post_init_fails_exactly [[LIVE]; [DEAD; LIVE]] (Some 1) (Some 2)
           (Some [0%nat; 1%nat]) H).
Defined.

(** C10.  Construction from cells without a row raises, whatever width and
    height are declared.  When the declarations do not conflict with the
    cells (no zero, no declared height), the exception is that of [max]
    on an empty sequence, which is none of the error kinds that the
    specification names. *)
Theorem empty_cells_always_fail (s : store) (width height : option Z) :
  ∃ e, Grid.post_init s width height (Some []) = Raise e ∧
       (invalid_dimension width height = false → height = None →
        e = ValueError "max() arg is an empty sequence") ∧
       kind_of (ValueError "max() arg is an empty sequence") = None.
Proof.
  rewrite post_init_cells by constructor.
  unfold validation, missing_dimension, height_mismatch.
  destruct (invalid_dimension width height).
  { eexists. split; [reflexivity|]. split; [done|reflexivity]. }
  destruct height as [h|].
  - destruct (negb (h =? len (@nil loc))); eexists;
      (split; [reflexivity|]); (split; [done|reflexivity]).
  - eexists. split; [reflexivity|]. split; [done|reflexivity].
Qed.

Lemma empty_cells_always_fail_witness :
  invalid_dimension (Some 4) None = false ∧
  ∃ e, Grid.post_init [] (Some 4) None (Some []) = Raise e ∧
       (invalid_dimension (Some 4) None = false → @None Z = None →
        e = ValueError "max() arg is an empty sequence") ∧
       kind_of (ValueError "max() arg is an empty sequence") = None.
Proof. split; [reflexivity|]. apply (empty_cells_always_fail [] (Some 4) None). Defined.

(** Construction from cells never changes a row: the padding is empty. *)
Lemma post_init_cells_store (s s' : store) (width height : option Z)
    (rows : list loc) (g : Grid.t) :
  Forall (fun row => is_Some (s !! row)) rows →
  Grid.post_init s width height (Some rows) = Ok (s', g) →
  s' = s ∧ g = Grid.mk width height rows.
Proof.
  intros Hrows. rewrite post_init_cells by done.
  destruct (validation s width height (Some rows)); [done|].
  by intros [= <- <-].
Qed.

(** C5, at rows of lengths 1 and 2.  [from_2d_seq([[1], [1, 1]])] succeeds,
    and the first row still has one cell: nothing was appended to it, its
    length is not the largest row length 2. *)
Theorem uneven_rows_not_padded :
  ∃ s' g, Grid.from_2d_seq py_bool [] [[1]; [1; 1]] = Ok (s', g) ∧
    Grid.cells g = [0%nat; 1%nat] ∧
    max_row_len s' (Grid.cells g) = 2 ∧
    s' !! 0%nat = Some [LIVE] ∧
    s' !! 1%nat = Some [LIVE; LIVE].
Proof. eexists _, _. repeat split. Qed.

(** A grid built by [from_2d_seq] has neither width nor height: nothing
    assigns them. *)
Lemma from_2d_seq_attributes {A} (to_bool : A → bool) (s s' : store)
    (items : list (list A)) (g : Grid.t) :
  Grid.from_2d_seq to_bool s items = Ok (s', g) →
  Grid.width g = None ∧ Grid.height g = None.
Proof.
  unfold Grid.from_2d_seq. rewrite new_rows_app. rewrite post_init_cells.
  - destruct (validation _ _ _ _); [done|]. by intros [= _ <-].
  - apply Forall_forall. intros row [Hlo Hhi]%elem_of_seq.
    apply lookup_lt_is_Some_2. rewrite length_app. lia.
Qed.

(** C6, at two constructions that succeed.  [from_2d_seq([[1]])] leaves
    [width] and [height] at [None]; [Grid(width=-1, height=-1)] keeps the
    negative values. *)
Theorem width_height_not_positive :
  (∃ s' g, Grid.from_2d_seq py_bool [] [[1]] = Ok (s', g) ∧
           Grid.width g = None ∧ Grid.height g = None) ∧
  (∃ s' g, Grid.post_init [] (Some (-1)) (Some (-1)) None = Ok (s', g) ∧
           Grid.width g = Some (-1) ∧ Grid.height g = Some (-1)).
Proof. split; eexists _, _; repeat split. Qed.

(** *** Access to the cells of a grid *)

Lemma has_dims_len (s : store) (g : Grid.t) (w h : Z) :
  has_dims s g w h = true → len (Grid.cells g) = h.
Proof. unfold has_dims. intros [H _]%andb_prop. lia. Qed.

Lemma has_dims_elem (s : store) (g : Grid.t) (w h : Z) (row : loc) :
  has_dims s g w h = true → row ∈ Grid.cells g →
  ∃ l, s !! row = Some l ∧ len l = w.
Proof.
  unfold has_dims. intros [_ H]%andb_prop Hin.
  rewrite forallb_forall in H. apply list_elem_of_In, H in Hin.
  destruct (s !! row) as [l|]; [|done]. exists l. split; [done|lia].
Qed.

Lemma has_dims_row (s : store) (g : Grid.t) (w h y : Z) :
  has_dims s g w h = true → 0 ≤ y < h →
  ∃ row l, Grid.cells g !! Z.to_nat y = Some row ∧ s !! row = Some l ∧ len l = w.
Proof.
  intros Hd Hy. pose proof (has_dims_len _ _ _ _ Hd) as Hlen.
  destruct (lookup_lt_is_Some_2 (Grid.cells g) (Z.to_nat y)) as [row Hrow].
  { unfold len in Hlen. lia. }
  destruct (has_dims_elem _ _ _ _ row Hd) as (l & Hl & Hw).
  { by eapply list_elem_of_lookup_2. }
  eauto.
Qed.

(** A store whose rows have the lengths of those of [s] gives the same
    dimensions. *)
Lemma has_dims_same_lengths (s s' : store) (g : Grid.t) (w h : Z) :
  (∀ row, length <$> s' !! row = length <$> s !! row) →
  has_dims s' g w h = has_dims s g w h.
Proof.
  intros Hlen. unfold has_dims. f_equal.
  induction (Grid.cells g) as [|row rows IH]; [done|]. simpl.
  rewrite IH. f_equal. specialize (Hlen row). unfold len.
  destruct (s' !! row), (s !! row); simplify_eq/=; [|done]. by rewrite Hlen.
Qed.

Lemma write_lengths (s : store) (g : Grid.t) (x y : Z) (v : bool) (row : loc) :
  length <$> write s g x y v !! row = length <$> s !! row.
Proof.
  unfold write. destruct (Grid.cells g !! Z.to_nat y) as [r|]; [|done].
  destruct (s !! r) as [l|] eqn:Hl; [|done].
  destruct (decide (r = row)) as [->|Hne].
  - rewrite list_lookup_insert_eq by (by eapply lookup_lt_Some).
    rewrite Hl. simpl. by rewrite length_insert.
  - by rewrite list_lookup_insert_ne.
Qed.

Lemma has_dims_write (s : store) (g g' : Grid.t) (w h x y : Z) (v : bool) :
  has_dims (write s g x y v) g' w h = has_dims s g' w h.
Proof. apply has_dims_same_lengths. intros row. apply write_lengths. Qed.

(** A row that is not of [g] is not touched by a write to [g]. *)
Lemma write_frame (s : store) (g : Grid.t) (x y : Z) (v : bool) (row : loc) :
  row ∉ Grid.cells g → write s g x y v !! row = s !! row.
Proof.
  intros Hnot. unfold write.
  destruct (Grid.cells g !! Z.to_nat y) as [r|] eqn:Hr; [|done].
  destruct (s !! r) as [l|]; [|done].
  apply list_lookup_insert_ne. intros ->. apply Hnot.
  by eapply list_elem_of_lookup_2.
Qed.

Lemma cell_is_Some (s : store) (g : Grid.t) (w h x y : Z) :
  has_dims s g w h = true → 0 ≤ x < w → 0 ≤ y < h → is_Some (cell s g x y).
Proof.
  intros Hd Hx Hy. destruct (has_dims_row _ _ _ _ y Hd Hy) as (row & l & Hrow & Hl & Hw).
  unfold cell. rewrite Hrow. simpl. rewrite Hl. simpl.
  apply lookup_lt_is_Some_2. unfold len in Hw. lia.
Qed.

Lemma cell_write_same (s : store) (g : Grid.t) (w h x y : Z) (v : bool) :
  has_dims s g w h = true → 0 ≤ x < w → 0 ≤ y < h →
  cell (write s g x y v) g x y = Some v.
Proof.
  intros Hd Hx Hy. destruct (has_dims_row _ _ _ _ y Hd Hy) as (row & l & Hrow & Hl & Hw).
  unfold cell, write. rewrite Hrow, Hl. simpl.
  rewrite list_lookup_insert_eq by (by eapply lookup_lt_Some). simpl.
  apply list_lookup_insert_eq. unfold len in Hw. lia.
Qed.

Lemma cell_write_other (s : store) (g : Grid.t) (w h x y x' y' : Z) (v : bool) :
  NoDup (Grid.cells g) → has_dims s g w h = true →
  0 ≤ x < w → 0 ≤ y < h → 0 ≤ x' < w → 0 ≤ y' < h →
  (x, y) ≠ (x', y') →
  cell (write s g x' y' v) g x y = cell s g x y.
Proof.
  intros Hnd Hd Hx Hy Hx' Hy' Hne.
  destruct (has_dims_row _ _ _ _ y' Hd Hy') as (row' & l' & Hrow' & Hl' & Hw').
  destruct (has_dims_row _ _ _ _ y Hd Hy) as (row & l & Hrow & Hl & Hw).
  unfold cell, write. rewrite Hrow', Hl', Hrow. simpl.
  destruct (decide (row = row')) as [->|Hrne].
  - pose proof (NoDup_lookup _ _ _ _ Hnd Hrow Hrow') as Hyy.
    assert (y = y') as -> by lia.
    rewrite list_lookup_insert_eq by (by eapply lookup_lt_Some).
    rewrite Hl'. simpl. apply list_lookup_insert_ne.
    intros Hxx. apply Hne. f_equal. lia.
  - by rewrite list_lookup_insert_ne.
Qed.

(** The cells of [g] depend on the rows of [g] only. *)
Lemma cell_same_rows (s s' : store) (g : Grid.t) (x y : Z) :
  (∀ row, row ∈ Grid.cells g → s' !! row = s !! row) →
  cell s' g x y = cell s g x y.
Proof.
  intros Hrows. unfold cell.
  destruct (Grid.cells g !! Z.to_nat y) as [row|] eqn:Hrow; [|done]. simpl.
  rewrite Hrows; [done|]. by eapply list_elem_of_lookup_2.
Qed.

Lemma live_count_same_rows (s s' : store) (g : Grid.t) (w h x y : Z) :
  (∀ row, row ∈ Grid.cells g → s' !! row = s !! row) →
  live_count s' g w h x y = live_count s g w h x y.
Proof.
  intros Hrows. unfold live_count.
  induction offsets as [|[dx dy] ds IH]; [done|]. simpl.
  by rewrite IH, (cell_same_rows s s').
Qed.

Lemma next_state_same_rows (s s' : store) (g : Grid.t) (w h x y : Z) :
  (∀ row, row ∈ Grid.cells g → s' !! row = s !! row) →
  next_state s' g w h x y = next_state s g w h x y.
Proof.
  intros Hrows. unfold next_state.
  by rewrite (live_count_same_rows s s'), (cell_same_rows s s').
Qed.

Lemma next_state_rule (s : store) (g : Grid.t) (w h x y : Z) (c : bool) :
  cell s g x y = Some c →
  life_rule (live_count s g w h x y) c (next_state s g w h x y).
Proof.
  intros Hc. unfold life_rule, next_state. rewrite Hc. simpl.
  destruct (Z.ltb_spec (live_count s g w h x y) 2);
    destruct (Z.gtb_spec (live_count s g w h x y) 3);
    destruct (Z.eqb_spec (live_count s g w h x y) 3); simpl;
    repeat split; intros; try lia; done.
Qed.

(** [Grid.__getitem__] wraps both coordinates. *)
Lemma Grid_getitem_wrap (s : store) (g : Grid.t) (w h : Z) (p : Point.t) :
  0 < w → 0 < h → has_dims s g w h = true →
  ∃ b, cell s g (Point.x p mod w) (Point.y p mod h) = Some b ∧
       Grid.getitem s g p = Ok b.
Proof.
  intros Hw Hh Hd. pose proof (has_dims_len _ _ _ _ Hd) as Hlen.
  unfold Grid.getitem, cell.
  destruct (getitem_nonempty (Grid.cells g) (Point.y p)) as (row & Hrow & ->); [lia|].
  rewrite Hlen in Hrow. rewrite Hrow. simpl.
  destruct (has_dims_elem _ _ _ _ row Hd) as (l & Hl & Hlw).
  { by eapply list_elem_of_lookup_2. }
  unfold deref. rewrite Hl. simpl.
  destruct (getitem_nonempty l (Point.x p)) as (b & Hb & ->); [lia|].
  rewrite Hlw in Hb. eauto.
Qed.

(** [Grid.__setitem__] wraps both coordinates. *)
Lemma Grid_setitem_wrap (s : store) (g : Grid.t) (w h : Z) (p : Point.t) (v : bool) :
  0 < w → 0 < h → has_dims s g w h = true →
  Grid.setitem s g p v = Ok (write s g (Point.x p mod w) (Point.y p mod h) v).
Proof.
  intros Hw Hh Hd. pose proof (has_dims_len _ _ _ _ Hd) as Hlen.
  unfold Grid.setitem, write.
  destruct (getitem_nonempty (Grid.cells g) (Point.y p)) as (row & Hrow & ->); [lia|].
  rewrite Hlen in Hrow. rewrite Hrow. simpl.
  destruct (has_dims_elem _ _ _ _ row Hd) as (l & Hl & Hlw).
  { by eapply list_elem_of_lookup_2. }
  unfold deref. rewrite Hl. simpl.
  rewrite setitem_nonempty by lia. simpl. by rewrite Hlw.
Qed.

(** *** The generation step *)

Lemma dirs_offsets : dirs = map (fun '(dx, dy) => Point.mk dx dy) offsets.
Proof. reflexivity. Qed.

Lemma sum_neighbors_count (s : store) (g : Grid.t) (w h : Z) (p : Point.t) :
  0 < w → 0 < h → has_dims s g w h = true →
  sum_neighbors s g p dirs = Ok (live_count s g w h (Point.x p) (Point.y p)).
Proof.
  intros Hw Hh Hd. rewrite dirs_offsets. unfold live_count.
  induction offsets as [|[dx dy] ds IH]; [done|]. simpl.
  destruct (Grid_getitem_wrap s g w h (Point.add p (Point.mk dx dy)) Hw Hh Hd)
    as (b & Hb & ->).
  simpl in Hb. rewrite Hb, IH. done.
Qed.

(** One pass through the loop body, at a point of the grid. *)
Lemma nextgen_cell_write (s : store) (g1 g2 : Grid.t) (w h x y : Z) :
  0 < w → 0 < h → has_dims s g1 w h = true → has_dims s g2 w h = true →
  0 ≤ x < w → 0 ≤ y < h →
  nextgen_cell s g1 g2 (Point.mk x y) =
    Ok (write s g2 x y (next_state s g1 w h x y)).
Proof.
  intros Hw Hh Hd1 Hd2 Hx Hy. unfold nextgen_cell, next_state.
  rewrite (sum_neighbors_count s g1 w h) by done. simpl.
  destruct (Grid_getitem_wrap s g1 w h (Point.mk x y) Hw Hh Hd1) as (c & Hc & Hget).
  simpl in Hc. rewrite (Z.mod_small x), (Z.mod_small y) in Hc by lia.
  rewrite Hget, Hc. simpl.
  destruct ((live_count s g1 w h x y <? 2) || (live_count s g1 w h x y >? 3));
    [|destruct (live_count s g1 w h x y =? 3)];
    rewrite (Grid_setitem_wrap s g2 w h) by done; simpl;
    by rewrite (Z.mod_small x), (Z.mod_small y) by lia.
Qed.

Lemma has_dims_run_writes (s : store) (g1 g2 g : Grid.t) (w h w' h' : Z)
    (ps : list Point.t) :
  has_dims (run_writes s g1 g2 w h ps) g w' h' = has_dims s g w' h'.
Proof.
  revert s. induction ps as [|p ps IH]; intros s; [done|].
  unfold run_writes in *. simpl. by rewrite IH, has_dims_write.
Qed.

Lemma run_writes_app (s : store) (g1 g2 : Grid.t) (w h : Z) (ps qs : list Point.t) :
  run_writes s g1 g2 w h (ps ++ qs) =
    run_writes (run_writes s g1 g2 w h ps) g1 g2 w h qs.
Proof. unfold run_writes. apply foldl_app. Qed.

(** The loop body run over points of the grid writes them one by one. *)
Lemma nextgen_cells_run (s : store) (g1 g2 : Grid.t) (w h : Z) (ps : list Point.t) :
  0 < w → 0 < h → has_dims s g1 w h = true → has_dims s g2 w h = true →
  Forall (in_extent w h) ps →
  nextgen_cells s g1 g2 ps = Ok (run_writes s g1 g2 w h ps).
Proof.
  intros Hw Hh Hd1 Hd2 Hps. revert s Hd1 Hd2.
  induction Hps as [|[x y] ps [Hx Hy] _ IH]; intros s Hd1 Hd2; [done|].
  simpl in Hx, Hy. simpl.
  rewrite (nextgen_cell_write s g1 g2 w h) by done. simpl.
  apply IH; by rewrite has_dims_write.
Qed.

Lemma nextgen_row_cells (s : store) (g1 g2 : Grid.t) (y : Z) (xs : list Z) :
  nextgen_row s g1 g2 y xs =
    nextgen_cells s g1 g2 (map (fun x => Point.mk x y) xs).
Proof.
  revert s. induction xs as [|x xs IH]; intros s; [done|]. simpl.
  destruct (nextgen_cell s g1 g2 (Point.mk x y)); [apply IH|done].
Qed.

Lemma row_points_in_extent (w h y : Z) :
  0 ≤ y < h → Forall (in_extent w h) (map (fun x => Point.mk x y) (range w)).
Proof.
  intros Hy. apply Forall_map, Forall_forall. intros x Hx%elem_of_seqZ.
  split; simpl; lia.
Qed.

Lemma row_points_bind (w y : Z) :
  (x ← range w; [Point.mk x y]) = map (fun x => Point.mk x y) (range w).
Proof. induction (range w) as [|x xs IH]; [done|]. by rewrite bind_cons, IH. Qed.

(** The outer loop, from row [y0] on. *)
Lemma nextgen_rows_run (s : store) (g1 g2 : Grid.t) (w h y0 : Z) (rows : list loc) :
  0 < w → 0 < h → has_dims s g1 w h = true → has_dims s g2 w h = true →
  0 ≤ y0 → y0 + len rows = h →
  Forall (fun row => row ∈ Grid.cells g1) rows →
  nextgen_rows s g1 g2 (enumerate_from y0 rows) =
    Ok (run_writes s g1 g2 w h (y ← seqZ y0 (len rows); x ← range w; [Point.mk x y])).
Proof.
  intros Hw Hh Hd1 Hd2 Hy0 Hlen Hrows. revert s y0 Hd1 Hd2 Hy0 Hlen.
  induction Hrows as [|row rows Hrow _ IH]; intros s y0 Hd1 Hd2 Hy0 Hlen; [done|].
  assert (len (row :: rows) = Z.succ (len rows)) as Hsucc by apply Nat2Z.inj_succ.
  pose proof (len_nonneg rows) as Hnn.
  rewrite Hsucc in *. rewrite seqZ_cons by lia.
  rewrite Z.pred_succ. rewrite bind_cons. cbn [enumerate_from nextgen_rows].
  destruct (has_dims_elem _ _ _ _ row Hd1 Hrow) as (l & Hl & Hlw).
  unfold deref. rewrite Hl. simpl. rewrite Hlw.
  rewrite nextgen_row_cells.
  rewrite (nextgen_cells_run s g1 g2 w h) by (try done; apply row_points_in_extent; lia).
  simpl. rewrite Z.add_1_r.
  rewrite IH by (rewrite ?has_dims_run_writes; try done; lia).
  by rewrite run_writes_app, row_points_bind.
Qed.

Lemma nextgen_run (s : store) (g1 g2 : Grid.t) (w h : Z) :
  0 < w → 0 < h → has_dims s g1 w h = true → has_dims s g2 w h = true →
  nextgen s g1 g2 = Ok (run_writes s g1 g2 w h (positions w h), g2).
Proof.
  intros Hw Hh Hd1 Hd2. pose proof (has_dims_len _ _ _ _ Hd1) as Hlen.
  unfold nextgen, enumerate.
  rewrite (nextgen_rows_run s g1 g2 w h)
    by (try done; try lia; by apply Forall_forall).
  simpl. by rewrite Hlen.
Qed.

Lemma positions_in_extent (w h : Z) : Forall (in_extent w h) (positions w h).
Proof.
  apply Forall_forall. intros p. unfold positions.
  intros (y & (x & Hp & Hx%elem_of_seqZ)%list_elem_of_bind & Hy%elem_of_seqZ)%list_elem_of_bind.
  apply list_elem_of_singleton in Hp as ->. split; simpl; lia.
Qed.

Lemma positions_complete (w h x y : Z) :
  0 ≤ x < w → 0 ≤ y < h → Point.mk x y ∈ positions w h.
Proof.
  intros Hx Hy. unfold positions. apply list_elem_of_bind. exists y.
  split; [|apply elem_of_seqZ; lia].
  apply list_elem_of_bind. exists x.
  split; [by apply list_elem_of_singleton|apply elem_of_seqZ; lia].
Qed.

Lemma positions_NoDup (w h : Z) : NoDup (positions w h).
Proof.
  unfold positions. apply NoDup_bind; [| |apply NoDup_seqZ].
  - intros y1 y2 p _ _ (x1 & ->%list_elem_of_singleton & _)%list_elem_of_bind
      (x2 & [= _ ->]%list_elem_of_singleton & _)%list_elem_of_bind.
    done.
  - intros y _. apply NoDup_bind; [| |apply NoDup_seqZ].
    + intros x1 x2 p _ _ ->%list_elem_of_singleton [= ->]%list_elem_of_singleton.
      done.
    + intros x _. apply NoDup_singleton.
Qed.

(** With separate rows, the writes leave every row outside [g2] as it was,
    and a cell of [g2] holds the state that the rule gives it in the
    initial [g1] once its point has been visited. *)
Lemma run_writes_separate (s : store) (g1 g2 : Grid.t) (w h : Z) (ps : list Point.t) :
  0 < w → 0 < h → has_dims s g1 w h = true → has_dims s g2 w h = true →
  separate g1 g2 → Forall (in_extent w h) ps →
  (∀ row, row ∉ Grid.cells g2 →
          run_writes s g1 g2 w h ps !! row = s !! row) ∧
  (∀ x y, 0 ≤ x < w → 0 ≤ y < h →
          cell (run_writes s g1 g2 w h ps) g2 x y =
            if decide (Point.mk x y ∈ ps) then Some (next_state s g1 w h x y)
            else cell s g2 x y).
Proof.
  intros Hw Hh Hd1 Hd2 [Hnd Hdisj] Hps.
  induction ps as [|[px py] ps IH] using rev_ind.
  { split; [done|]. intros x y _ _. rewrite decide_False; [done|]. by intros ?%elem_of_nil. }
  apply Forall_app in Hps as [Hps [[Hpx Hpy] _]%Forall_cons]. simpl in Hpx, Hpy.
  destruct (IH Hps) as [IHframe IHcell]. clear IH.
  rewrite run_writes_app. unfold run_writes at 1 3. simpl.
  fold (run_writes s g1 g2 w h ps).
  pose proof (has_dims_run_writes s g1 g2 g2 w h w h ps) as Hdst. rewrite Hd2 in Hdst.
  set (st := run_writes s g1 g2 w h ps) in *.
  assert (next_state st g1 w h px py = next_state s g1 w h px py) as ->.
  { apply next_state_same_rows. intros row Hrow. apply IHframe.
    rewrite Forall_forall in Hdisj. by apply Hdisj. }
  split.
  - intros row Hrow. rewrite write_frame by done. by apply IHframe.
  - intros x y Hx Hy. destruct (decide ((x, y) = (px, py))) as [[= -> ->]|Hne].
    + rewrite (cell_write_same st g2 w h) by done.
      rewrite decide_True; [done|]. apply elem_of_app. right. by apply list_elem_of_singleton.
    + rewrite (cell_write_other st g2 w h) by done.
      rewrite IHcell by done.
      destruct (decide (Point.mk x y ∈ ps)) as [Hin|Hnin].
      * rewrite decide_True; [done|]. apply elem_of_app. by left.
      * rewrite decide_False; [done|].
        intros [?|[= -> ->]%list_elem_of_singleton]%elem_of_app; done.
Qed.

(** With separate rows, after the step every cell of [g2] holds the state
    that the rule gives it in [g1] as it was before the step, and every
    row that is not of [g2] is as it was. *)
Lemma nextgen_separate (s : store) (g1 g2 : Grid.t) (w h : Z) :
  0 < w → 0 < h → has_dims s g1 w h = true → has_dims s g2 w h = true →
  separate g1 g2 →
  ∃ s', nextgen s g1 g2 = Ok (s', g2) ∧
        has_dims s' g1 w h = true ∧ has_dims s' g2 w h = true ∧
        (∀ row, row ∉ Grid.cells g2 → s' !! row = s !! row) ∧
        (∀ x y, 0 ≤ x < w → 0 ≤ y < h →
                cell s' g2 x y = Some (next_state s g1 w h x y)).
Proof.
  intros Hw Hh Hd1 Hd2 Hsep. eexists. split; [by apply (nextgen_run s g1 g2 w h)|].
  rewrite !has_dims_run_writes.
  destruct (run_writes_separate s g1 g2 w h (positions w h))
    as [Hframe Hcell]; try done; [apply positions_in_extent|].
  repeat split; try done.
  intros x y Hx Hy. rewrite Hcell by done.
  rewrite decide_True; [done|]. by apply positions_complete.
Qed.

Lemma live_count_ge (s : store) (g : Grid.t) (w h x y dx dy : Z) :
  (dx, dy) ∈ offsets →
  Z.b2z (default false (cell s g ((x + dx) mod w) ((y + dy) mod h)))
    ≤ live_count s g w h x y.
Proof.
  unfold live_count. intros Hin.
  induction offsets as [|[dx' dy'] ds IH]; [by apply elem_of_nil in Hin|].
  assert (0 ≤ foldr (fun '(dx, dy) n =>
            Z.b2z (default false (cell s g ((x + dx) mod w) ((y + dy) mod h))) + n)
            0 ds) as Hpos.
  { clear. induction ds as [|[a b] ds IH]; simpl; [lia|].
    destruct (default false _); simpl; lia. }
  simpl. apply elem_of_cons in Hin as [[= <- <-]|Hin].
  - lia.
  - specialize (IH Hin).
    destruct (default false (cell s g ((x + dx') mod w) ((y + dy') mod h))); simpl; lia.
Qed.

Lemma live_count_split (s : store) (g : Grid.t) (w h x y dx dy : Z) :
  (dx, dy) ∈ offsets →
  live_count s g w h x y =
    Z.b2z (default false (cell s g ((x + dx) mod w) ((y + dy) mod h)))
    + others_count s g w h x y (dx, dy).
Proof.
  intros Hin. unfold live_count, others_count.
  assert (offsets =
          [(-1, -1); (-1, 0); (-1, 1); (0, -1); (0, 1); (1, -1); (1, 0); (1, 1)])
    as Heq by reflexivity.
  rewrite Heq in *.
  repeat (apply elem_of_cons in Hin as [[= -> ->]|Hin];
          [match goal with
           | |- context [filter ?P ?l] =>
               let r := eval vm_compute in (filter P l) in
               change (filter P l) with r
           end; simpl; lia|]).
  by apply elem_of_nil in Hin.
Qed.

(** C3.  On a grid of [w] columns and [h] rows, both positive, a lookup at
    a point plus one of the eight offsets never raises and reads the cell
    whose column and row are the sums taken modulo [w] and [h].  The offset
    (-1, -1) takes (0, 0) to the cell (w-1, h-1), and (1, 1) takes
    (w-1, h-1) to (0, 0).  The number of live neighbours that the step
    computes at (0, 0) is the state of (w-1, h-1), 1 when live, plus the
    live cells reached through the seven other offsets, and the same at
    (w-1, h-1) with (0, 0).  The step runs its body at both corners, and
    the body writes there the value that the rule gives for these
    numbers. *)
Theorem toroidal_adjacency (s : store) (g : Grid.t) (w h : Z) :
  0 < w → 0 < h → has_dims s g w h = true →
  (∀ p d, d ∈ dirs →
     ∃ b, Grid.getitem s g (Point.add p d) = Ok b ∧
          cell s g ((Point.x p + Point.x d) mod w) ((Point.y p + Point.y d) mod h)
            = Some b) ∧
  ∃ b c,
    cell s g (w - 1) (h - 1) = Some b ∧ cell s g 0 0 = Some c ∧
    Point.mk (-1) (-1) ∈ dirs ∧
    Grid.getitem s g (Point.add (Point.mk 0 0) (Point.mk (-1) (-1))) = Ok b ∧
    sum_neighbors s g (Point.mk 0 0) dirs
      = Ok (Z.b2z b + others_count s g w h 0 0 (-1, -1)) ∧
    Point.mk 1 1 ∈ dirs ∧
    Grid.getitem s g (Point.add (Point.mk (w - 1) (h - 1)) (Point.mk 1 1)) = Ok c ∧
    sum_neighbors s g (Point.mk (w - 1) (h - 1)) dirs
      = Ok (Z.b2z c + others_count s g w h (w - 1) (h - 1) (1, 1)) ∧
    ∀ next, has_dims s next w h = true →
      ∃ v0 v1 s',
        nextgen_cell s g next (Point.mk 0 0) = Ok (write s next 0 0 v0) ∧
        life_rule (Z.b2z b + others_count s g w h 0 0 (-1, -1)) c v0 ∧
        nextgen_cell s g next (Point.mk (w - 1) (h - 1))
          = Ok (write s next (w - 1) (h - 1) v1) ∧
        life_rule (Z.b2z c + others_count s g w h (w - 1) (h - 1) (1, 1)) b v1 ∧
        nextgen s g next = Ok (s', next) ∧
        nextgen_cells s g next (positions w h) = Ok s' ∧
        Point.mk 0 0 ∈ positions w h ∧
        Point.mk (w - 1) (h - 1) ∈ positions w h.
Proof.
  intros Hw Hh Hd.
  assert (∀ k, 0 < k → (0 + -1) mod k = k - 1) as Hlast.
  { intros k Hk. symmetry. apply Z.mod_unique_pos with (q := -1); lia. }
  assert (∀ k, 0 < k → (k - 1 + 1) mod k = 0) as Hfirst.
  { intros k Hk. replace (k - 1 + 1) with k by lia. apply Z_mod_same_full. }
  split.
  { intros p d _.
    destruct (Grid_getitem_wrap s g w h (Point.add p d) Hw Hh Hd) as (b & Hb & Hget).
    eauto. }
  destruct (Grid_getitem_wrap s g w h (Point.add (Point.mk 0 0) (Point.mk (-1) (-1)))
              Hw Hh Hd) as (b & Hb & Hgetb).
  destruct (Grid_getitem_wrap s g w h
              (Point.add (Point.mk (w - 1) (h - 1)) (Point.mk 1 1)) Hw Hh Hd)
    as (c & Hc & Hgetc).
  simpl in Hb, Hc. rewrite !Hlast in Hb by done. rewrite !Hfirst in Hc by done.
  assert (live_count s g w h 0 0 = Z.b2z b + others_count s g w h 0 0 (-1, -1)) as Hn0.
  { rewrite (live_count_split s g w h 0 0 (-1) (-1)) by compute_done.
    by rewrite !Hlast, Hb by done. }
  assert (live_count s g w h (w - 1) (h - 1)
          = Z.b2z c + others_count s g w h (w - 1) (h - 1) (1, 1)) as Hn1.
  { rewrite (live_count_split s g w h (w - 1) (h - 1) 1 1) by compute_done.
    by rewrite !Hfirst, Hc by done. }
  exists b, c. split; [done|]. split; [done|]. split; [compute_done|].
  split; [done|].
  split; [by rewrite (sum_neighbors_count s g w h), <- Hn0|].
  split; [compute_done|]. split; [done|].
  split; [by rewrite (sum_neighbors_count s g w h), <- Hn1|].
  intros next Hdn.
  exists (next_state s g w h 0 0), (next_state s g w h (w - 1) (h - 1)),
         (run_writes s g next w h (positions w h)).
  split; [apply nextgen_cell_write; try done; lia|].
  split; [rewrite <- Hn0; by apply next_state_rule|].
  split; [apply nextgen_cell_write; try done; lia|].
  split; [rewrite <- Hn1; by apply next_state_rule|].
  split; [by apply nextgen_run|].
  split; [apply nextgen_cells_run; try done; apply positions_in_extent|].
  split; apply positions_complete; lia.
Qed.

Lemma toroidal_adjacency_witness :
  0 < 3 ∧ has_dims sample_store blinker 3 3 = true ∧
  ∃ b, cell sample_store blinker (3 - 1) (3 - 1) = Some b ∧
       sum_neighbors sample_store blinker (Point.mk 0 0) dirs
         = Ok (Z.b2z b + others_count sample_store blinker 3 3 0 0 (-1, -1)).
Proof.
  split; [lia|]. split; [reflexivity|].
  destruct (toroidal_adjacency sample_store blinker 3 3)
    as (_ & b & c & Hb & _ & _ & _ & Hsum & _); [lia|lia|reflexivity|].
  exists b. by split.
Defined.

(** One run of the loop body.  For grids [current] and [next] of the same
    positive dimensions, [nextgen] succeeds, returns [next] and runs its
    body once at each position, row by row; run at a position in any
    state of the rows, the body writes there, and nowhere else, the value
    that the rule gives for the neighbours in [current] at that moment. *)
Lemma nextgen_body_rule (s : store) (current next : Grid.t) (w h : Z) :
  0 < w → 0 < h →
  has_dims s current w h = true → has_dims s next w h = true →
  ∃ s',
    nextgen s current next = Ok (s', next) ∧
    nextgen_cells s current next (positions w h) = Ok s' ∧
    NoDup (positions w h) ∧
    (∀ x y, Point.mk x y ∈ positions w h ↔ 0 ≤ x < w ∧ 0 ≤ y < h) ∧
    (∀ st x y,
       has_dims st current w h = true → has_dims st next w h = true →
       0 ≤ x < w → 0 ≤ y < h →
       ∃ c v, cell st current x y = Some c ∧
              life_rule (live_count st current w h x y) c v ∧
              nextgen_cell st current next (Point.mk x y) = Ok (write st next x y v) ∧
              cell (write st next x y v) next x y = Some v ∧
              has_dims (write st next x y v) current w h = true ∧
              has_dims (write st next x y v) next w h = true).
Proof.
  intros Hw Hh Hd1 Hd2. exists (run_writes s current next w h (positions w h)).
  split; [by apply nextgen_run|].
  split; [apply nextgen_cells_run; try done; apply positions_in_extent|].
  split; [apply positions_NoDup|].
  split.
  { intros x y. split; [|intros []; by apply positions_complete].
    intros Hin. pose proof (positions_in_extent w h) as Hall.
    rewrite Forall_forall in Hall. apply (Hall _ Hin). }
  intros st x y Hst1 Hst2 Hx Hy.
  destruct (cell_is_Some st current w h x y Hst1 Hx Hy) as [c Hc].
  exists c, (next_state st current w h x y).
  split; [done|]. split; [by apply next_state_rule|].
  split; [by apply nextgen_cell_write|].
  split; [by apply (cell_write_same st next w h)|].
  by rewrite !has_dims_write.
Qed.

(** C1, as stated, fails when rows are shared.  With [next] the grid
    [current] itself, the blinker: (1, 0) has three live neighbours in
    [current] and is dead in [next] after the step.  With a [next] that
    shares no row with [current] but whose three rows are one object: the
    cell (0, 0) of the still grid is live with three live neighbours, and
    (0, 0) is dead in [next] after the step. *)
Lemma nextgen_rule_fails_on_shared_rows :
  (has_dims sample_store blinker 3 3 = true ∧
   live_count sample_store blinker 3 3 1 0 = 3 ∧
   ∃ s', nextgen sample_store blinker blinker = Ok (s', blinker) ∧
         cell s' blinker 1 0 = Some DEAD) ∧
  (has_dims still_store still 3 3 = true ∧ has_dims still_store folded 3 3 = true ∧
   disjoint_rows still folded ∧
   live_count still_store still 3 3 0 0 = 3 ∧
   ∃ s', nextgen still_store still folded = Ok (s', folded) ∧
         cell s' folded 0 0 = Some DEAD).
Proof.
  split.
  - repeat (split; [reflexivity|]). eexists. split; reflexivity.
  - repeat (split; [reflexivity|]). split; [compute_done|].
    split; [reflexivity|]. eexists. split; reflexivity.
Qed.

(** C1, amended.  For grids [current] and [next] of the same positive
    width [w] and height [h] whose rows are separate objects (no row of
    [next] is a row of [current] or occurs twice in [next]), [nextgen]
    succeeds and returns [next], and after it every position (x, y) of
    [next] holds the value that the rule gives for the number [n] of live
    cells among the eight wrapped neighbours of (x, y) in [current] before
    the step: [DEAD] when [n < 2] or [n > 3], [LIVE] when [n = 3], the
    state [c] of [current] at (x, y) when [n = 2]. *)
Theorem nextgen_applies_rule (s : store) (current next : Grid.t) (w h : Z) :
  0 < w → 0 < h →
  has_dims s current w h = true → has_dims s next w h = true →
  separate current next →
  ∃ s',
    nextgen s current next = Ok (s', next) ∧
    ∀ x y, 0 ≤ x < w → 0 ≤ y < h →
      ∃ c v, cell s current x y = Some c ∧
             life_rule (live_count s current w h x y) c v ∧
             cell s' next x y = Some v.
Proof.
  intros Hw Hh Hd1 Hd2 Hsep.
  destruct (nextgen_separate s current next w h) as (s' & Hrun & _ & _ & _ & Hcell);
    try done.
  exists s'. split; [done|]. intros x y Hx Hy.
  destruct (cell_is_Some s current w h x y Hd1 Hx Hy) as [c Hc].
  exists c, (next_state s current w h x y).
  split; [done|]. split; [by apply next_state_rule|]. by apply Hcell.
Qed.

Lemma nextgen_applies_rule_witness :
  0 < 3 ∧ has_dims sample_store buffer 3 3 = true ∧
  has_dims sample_store blinker 3 3 = true ∧ separate buffer blinker ∧
  ∃ s', nextgen sample_store buffer blinker = Ok (s', blinker) ∧
        ∃ c v, cell sample_store buffer 1 1 = Some c ∧
               life_rule (live_count sample_store buffer 3 3 1 1) c v ∧
               cell s' blinker 1 1 = Some v.
Proof.
  assert (separate buffer blinker) as Hsep by (split; compute_done).
  split; [lia|]. split; [reflexivity|]. split; [reflexivity|]. split; [exact Hsep|].
  destruct (nextgen_applies_rule sample_store buffer blinker 3 3) as (s' & Hrun & Hrule);
    [lia|lia|reflexivity|reflexivity|exact Hsep|].
  exists s'. split; [done|]. apply Hrule; lia.
Defined.

Lemma cell_write_alias (s : store) (g : Grid.t) (w h x y : Z) (p : Point.t) (v : bool) :
  has_dims s g w h = true → 0 ≤ x < w → 0 ≤ y < h → in_extent w h p →
  cell (write s g (Point.x p) (Point.y p) v) g x y =
    if aliases g x y p then Some v else cell s g x y.
Proof.
  intros Hd Hx Hy [Hpx Hpy].
  destruct (has_dims_row _ _ _ _ (Point.y p) Hd Hpy) as (row' & l' & Hrow' & Hl' & Hw').
  destruct (has_dims_row _ _ _ _ y Hd Hy) as (row & l & Hrow & Hl & Hw).
  unfold aliases, cell, write. rewrite Hrow', Hl', Hrow. simpl.
  destruct (decide (row = row')) as [->|Hrne].
  - rewrite list_lookup_insert_eq by (by eapply lookup_lt_Some). simpl.
    destruct (decide (x = Point.x p)) as [->|Hxne].
    + rewrite bool_decide_eq_true_2 by done.
      apply list_lookup_insert_eq. unfold len in Hw'. lia.
    + rewrite bool_decide_eq_false_2 by (by intros [? _]).
      rewrite Hl'. simpl. apply list_lookup_insert_ne. lia.
  - rewrite bool_decide_eq_false_2 by (intros [_ [= ?]]; done).
    by rewrite list_lookup_insert_ne.
Qed.

Lemma last_alias_snoc (g : Grid.t) (x y : Z) (ps : list Point.t) (p : Point.t) :
  last_alias g x y (ps ++ [p]) =
    if aliases g x y p then Some p else last_alias g x y ps.
Proof. unfold last_alias. by rewrite foldl_app. Qed.

Lemma last_alias_Some (g : Grid.t) (x y : Z) (ps : list Point.t) (p : Point.t) :
  last_alias g x y ps = Some p → p ∈ ps ∧ aliases g x y p = true.
Proof.
  induction ps as [|q ps IH] using rev_ind; [done|].
  rewrite last_alias_snoc. destruct (aliases g x y q) eqn:Hq.
  - intros [= <-]. split; [|done]. apply elem_of_app. right. by apply list_elem_of_singleton.
  - intros [Hin Hal]%IH. split; [|done]. apply elem_of_app. by left.
Qed.

Lemma last_alias_is_Some (g : Grid.t) (x y : Z) (ps : list Point.t) (p : Point.t) :
  p ∈ ps → aliases g x y p = true → is_Some (last_alias g x y ps).
Proof.
  induction ps as [|q ps IH] using rev_ind; [by intros ?%elem_of_nil|].
  rewrite last_alias_snoc. intros [Hin|Hin%list_elem_of_singleton]%elem_of_app Hal.
  - destruct (aliases g x y q); [done|]. by apply IH.
  - subst q. by rewrite Hal.
Qed.

(** When no row of [g1] is a row of [g2], the writes leave every row
    outside [g2] as it was, and a cell of [g2] holds the state that the
    rule gives in the initial [g1] at the last point whose write landed
    on it. *)
Lemma run_writes_disjoint (s : store) (g1 g2 : Grid.t) (w h : Z) (ps : list Point.t) :
  0 < w → 0 < h → has_dims s g1 w h = true → has_dims s g2 w h = true →
  disjoint_rows g1 g2 → Forall (in_extent w h) ps →
  (∀ row, row ∉ Grid.cells g2 →
          run_writes s g1 g2 w h ps !! row = s !! row) ∧
  (∀ x y, 0 ≤ x < w → 0 ≤ y < h →
          cell (run_writes s g1 g2 w h ps) g2 x y =
            match last_alias g2 x y ps with
            | Some p => Some (next_state s g1 w h (Point.x p) (Point.y p))
            | None => cell s g2 x y
            end).
Proof.
  intros Hw Hh Hd1 Hd2 Hdisj Hps.
  induction ps as [|p ps IH] using rev_ind; [done|].
  apply Forall_app in Hps as [Hps [Hp _]%Forall_cons].
  destruct (IH Hps) as [IHframe IHcell]. clear IH.
  rewrite run_writes_app. unfold run_writes at 1 3. simpl.
  fold (run_writes s g1 g2 w h ps).
  pose proof (has_dims_run_writes s g1 g2 g2 w h w h ps) as Hdst. rewrite Hd2 in Hdst.
  set (st := run_writes s g1 g2 w h ps) in *.
  assert (next_state st g1 w h (Point.x p) (Point.y p)
          = next_state s g1 w h (Point.x p) (Point.y p)) as ->.
  { apply next_state_same_rows. intros row Hrow. apply IHframe.
    unfold disjoint_rows in Hdisj. rewrite Forall_forall in Hdisj. by apply Hdisj. }
  split.
  - intros row Hrow. rewrite write_frame by done. by apply IHframe.
  - intros x y Hx Hy. rewrite (cell_write_alias st g2 w h) by done.
    rewrite last_alias_snoc. destruct (aliases g2 x y p); [done|]. by apply IHcell.
Qed.

(** C4, as stated, fails when the two grids are one: [nextgen(g, g)] on
    the blinker changes the cell (0, 0) of [g] from dead to live, and
    leaves (1, 0) dead, where the rule gives live for the three live
    neighbours that (1, 0) has in [g] before the call. *)
Lemma nextgen_same_grid_mutates :
  has_dims sample_store blinker 3 3 = true ∧
  cell sample_store blinker 0 0 = Some DEAD ∧
  next_state sample_store blinker 3 3 1 0 = LIVE ∧
  ∃ s', nextgen sample_store blinker blinker = Ok (s', blinker) ∧
        cell s' blinker 0 0 = Some LIVE ∧
        cell s' blinker 1 0 = Some DEAD.
Proof. repeat (split; [reflexivity|]). eexists. repeat split. Qed.

(** C4, amended.  For grids [g] and [h] of the same dimensions that share
    no row object, [nextgen(g, h)] leaves every row that is not of [h] as
    it was, the cells of [g] among them, and overwrites every cell of [h]
    with a state that the rule gives in [g], at that cell or at one whose
    row in [h] is the same object.  That state does not depend on what [h]
    held: from a state [t] of the rows that agrees with [s] on the rows
    of [g], the step gives [h] the same cells; and so does a second call
    after the first. *)
Theorem nextgen_frame (s t : store) (g h : Grid.t) (w hh : Z) :
  0 < w → 0 < hh →
  has_dims s g w hh = true → has_dims s h w hh = true →
  has_dims t g w hh = true → has_dims t h w hh = true →
  disjoint_rows g h →
  (∀ row, row ∈ Grid.cells g → t !! row = s !! row) →
  ∃ s' t' s'',
    nextgen s g h = Ok (s', h) ∧
    nextgen t g h = Ok (t', h) ∧
    nextgen s' g h = Ok (s'', h) ∧
    (∀ row, row ∉ Grid.cells h → s' !! row = s !! row) ∧
    (∀ x y, cell s' g x y = cell s g x y) ∧
    (∀ x y, 0 ≤ x < w → 0 ≤ y < hh →
       (∃ y', 0 ≤ y' < hh ∧
              Grid.cells h !! Z.to_nat y' = Grid.cells h !! Z.to_nat y ∧
              cell s' h x y = Some (next_state s g w hh x y')) ∧
       cell t' h x y = cell s' h x y ∧
       cell s'' h x y = cell s' h x y).
Proof.
  intros Hw Hh Hsg Hsh Htg Hth Hdisj Hsame.
  pose proof (positions_in_extent w hh) as Hpos.
  destruct (run_writes_disjoint s g h w hh (positions w hh)) as [Hframe Hcell];
    try done.
  destruct (run_writes_disjoint t g h w hh (positions w hh)) as [_ Hcellt];
    try done.
  set (s' := run_writes s g h w hh (positions w hh)) in *.
  assert (has_dims s' g w hh = true) as Hs'g
    by (unfold s'; by rewrite has_dims_run_writes).
  assert (has_dims s' h w hh = true) as Hs'h
    by (unfold s'; by rewrite has_dims_run_writes).
  destruct (run_writes_disjoint s' g h w hh (positions w hh)) as [_ Hcell'];
    try done.
  assert (∀ row, row ∈ Grid.cells g → s' !! row = s !! row) as Hg.
  { intros row Hrow. apply Hframe.
    unfold disjoint_rows in Hdisj. rewrite Forall_forall in Hdisj. by apply Hdisj. }
  exists s', (run_writes t g h w hh (positions w hh)),
         (run_writes s' g h w hh (positions w hh)).
  split; [by apply nextgen_run|]. split; [by apply nextgen_run|].
  split; [by apply nextgen_run|]. split; [done|].
  split; [intros x y; by apply cell_same_rows|].
  intros x y Hx Hy. rewrite Hcell, Hcellt, Hcell' by done.
  destruct (last_alias_is_Some h x y (positions w hh) (Point.mk x y)) as [p Hp].
  { by apply positions_complete. }
  { unfold aliases. by rewrite bool_decide_eq_true_2. }
  rewrite Hp. apply last_alias_Some in Hp as [Hin Hal].
  rewrite Forall_forall in Hpos. destruct (Hpos p Hin) as [Hpx Hpy].
  unfold aliases in Hal. apply bool_decide_eq_true_1 in Hal as [-> Hrow].
  split.
  - exists (Point.y p). split; [done|]. split; [done|]. done.
  - by rewrite (next_state_same_rows s t), (next_state_same_rows s s').
Qed.

Lemma nextgen_frame_witness :
  0 < 3 ∧ has_dims still_store still 3 3 = true ∧
  has_dims still_store folded 3 3 = true ∧ disjoint_rows still folded ∧
  cell (<[3%nat := [LIVE; LIVE; LIVE]]> still_store) folded 0 0 = Some LIVE ∧
  ∃ s' t', nextgen still_store still folded = Ok (s', folded) ∧
           nextgen (<[3%nat := [LIVE; LIVE; LIVE]]> still_store) still folded
             = Ok (t', folded) ∧
           (∀ x y, cell s' still x y = cell still_store still x y) ∧
           cell t' folded 0 0 = cell s' folded 0 0.
Proof.
  assert (disjoint_rows still folded) as Hdisj by compute_done.
  split; [lia|]. split; [reflexivity|]. split; [reflexivity|]. split; [exact Hdisj|].
  split; [reflexivity|].
  destruct (nextgen_frame still_store (<[3%nat := [LIVE; LIVE; LIVE]]> still_store)
              still folded 3 3)
    as (s' & t' & s'' & Hrun & Hrunt & _ & _ & Hg & Hh);
    [lia|lia|reflexivity|reflexivity|reflexivity|reflexivity|exact Hdisj| |].
  { intros row Hrow. unfold still in Hrow. simpl in Hrow.
    repeat (apply elem_of_cons in Hrow as [->|Hrow]; [reflexivity|]).
    by apply elem_of_nil in Hrow. }
  exists s', t'. repeat (split; [done|]).
  apply (Hh 0 0); lia.
Defined.


(** *** The grids of [test_step.py]

    The four rules, on the grids of the repository's tests. *)

Example test_rule_1 :
  step_rows [[0; 0; 0]; [0; 1; 1]; [0; 0; 0]] 3 3 =
    Ok [[DEAD; DEAD; DEAD]; [DEAD; DEAD; DEAD]; [DEAD; DEAD; DEAD]].
Proof. reflexivity. Qed.

Example test_rule_2 :
  step_rows [[0; 1; 0]; [0; 1; 1]; [0; 0; 0]] 3 3 =
    Ok [[LIVE; LIVE; LIVE]; [LIVE; LIVE; LIVE]; [LIVE; LIVE; LIVE]].
Proof. reflexivity. Qed.

Example test_rule_3 :
  step_rows [[0; 0; 0; 0]; [0; 1; 1; 0]; [0; 1; 1; 1]; [0; 0; 0; 0]] 4 4 =
    Ok [[DEAD; DEAD; DEAD; DEAD]; [LIVE; LIVE; DEAD; LIVE];
        [LIVE; LIVE; DEAD; LIVE]; [DEAD; DEAD; LIVE; DEAD]].
Proof. reflexivity. Qed.

Example test_rule_4 :
  step_rows [[0; 0; 0]; [0; 0; 1]; [0; 1; 1]] 3 3 =
    Ok [[LIVE; LIVE; LIVE]; [LIVE; LIVE; LIVE]; [LIVE; LIVE; LIVE]].
Proof. reflexivity. Qed.

(** ** Further properties of the source *)

(** *** ToroidalArray: wrapped access *)

Lemma wrapped_index_shift {A} (self : list A) (i k : Z) :
  _wrapped_index self (i + k * len self) = _wrapped_index self i.
Proof.
  destruct (decide (len self = 0)) as [H0|Hne].
  - rewrite H0. by rewrite Z.mul_0_r, Z.add_0_r.
  - pose proof (len_nonneg self).
    rewrite !wrapped_index_mod by lia. f_equal. apply Z_mod_plus_full.
Qed.

(** X1.  Wrapped access is periodic in the length of the array: reading,
    writing or deleting at [i + k * len(self)] does what it does at [i],
    for all integers [i] and [k], on every array (on an empty one both
    raise). *)
Theorem wrapped_access_periodic {A} (self : list A) (i k : Z) (v : A) :
  getitem self (i + k * len self) = getitem self i ∧
  setitem self (i + k * len self) v = setitem self i v ∧
  delitem self (i + k * len self) = delitem self i.
Proof.
  unfold getitem, setitem, delitem. by rewrite !wrapped_index_shift.
Qed.

(** X2.  For an index of [-len, len) the array answers as a plain list
    does, negative indices counting from the end.  Outside that range a
    plain list raises [IndexError], where a non-empty array still returns
    an item. *)
Theorem getitem_as_list_in_range {A} (self : list A) (i : Z) :
  (- len self ≤ i < len self → getitem self i = list_subscript self i) ∧
  (i < - len self ∨ len self ≤ i →
     list_subscript self i = Raise IndexError ∧
     (self ≠ [] → is_Ok (getitem self i) = true)).
Proof.
  pose proof (len_nonneg self) as Hnn. split.
  - intros Hi. assert (0 < len self) as Hn by lia.
    destruct (getitem_nonempty self i Hn) as (v & Hv & ->).
    unfold list_subscript, list_position.
    destruct (Z.leb_spec 0 i) as [Hpos|Hneg].
    + destruct (Z.ltb_spec i (len self)); [|lia]. simpl.
      rewrite Z.mod_small in Hv by lia. by rewrite Hv.
    + simpl. destruct (Z.leb_spec (- len self) i); [|lia].
      destruct (Z.ltb_spec i 0); [|lia]. simpl.
      replace (i mod len self) with (i + len self) in Hv
        by (apply Z.mod_unique_pos with (q := -1); lia).
      by rewrite Hv.
  - intros Hi. split.
    + unfold list_subscript, list_position.
      destruct (Z.leb_spec 0 i); destruct (Z.ltb_spec i (len self));
        destruct (Z.leb_spec (- len self) i); destruct (Z.ltb_spec i 0);
        simpl; try done; lia.
    + intros Hne. destruct (getitem_nonempty self i (len_pos _ Hne)) as (v & _ & ->).
      done.
Qed.

Lemma getitem_as_list_in_range_witness :
  - len [DEAD; LIVE; DEAD] ≤ -1 < len [DEAD; LIVE; DEAD] ∧
  getitem [DEAD; LIVE; DEAD] (-1) = list_subscript [DEAD; LIVE; DEAD] (-1).
Proof.
  assert (- len [DEAD; LIVE; DEAD] ≤ -1 < len [DEAD; LIVE; DEAD]) as H
    by (unfold len; simpl; lia).
  split; [exact H|].
  exact (proj1 (getitem_as_list_in_range [DEAD; LIVE; DEAD] (-1)) H).
Defined.

(** X3.  A write that succeeds keeps the length, is read back at the same
    index, and leaves the item at every index that is not congruent to it
    modulo the length as it was. *)
Theorem setitem_then_getitem {A} (self self' : list A) (i : Z) (v : A) :
  setitem self i v = Ok self' →
  len self' = len self ∧
  getitem self' i = Ok v ∧
  (∀ j, j mod len self ≠ i mod len self → getitem self' j = getitem self j).
Proof.
  intros Hset. pose proof (len_nonneg self) as Hnn.
  destruct (decide (len self = 0)) as [H0|Hne].
  { apply len_nil_inv in H0 as ->. done. }
  assert (0 < len self) as Hn by lia.
  rewrite setitem_nonempty in Hset by done. injection Hset as <-.
  pose proof (Z.mod_pos_bound i (len self) Hn) as Hb.
  assert (len (<[Z.to_nat (i mod len self) := v]> self) = len self) as Hlen
    by (unfold len; by rewrite length_insert).
  split; [done|]. split.
  - destruct (getitem_nonempty (<[Z.to_nat (i mod len self) := v]> self) i)
      as (v' & Hv' & ->); [lia|].
    rewrite Hlen in Hv'.
    rewrite list_lookup_insert_eq in Hv' by (unfold len in *; lia).
    congruence.
  - intros j Hj. pose proof (Z.mod_pos_bound j (len self) Hn) as Hbj.
    destruct (getitem_nonempty (<[Z.to_nat (i mod len self) := v]> self) j)
      as (v1 & Hv1 & ->); [lia|].
    destruct (getitem_nonempty self j Hn) as (v2 & Hv2 & ->).
    rewrite Hlen in Hv1. rewrite list_lookup_insert_ne in Hv1 by lia.
    congruence.
Qed.

Lemma setitem_then_getitem_witness :
  setitem [DEAD; DEAD; DEAD] 4 LIVE = Ok [DEAD; LIVE; DEAD] ∧
  getitem [DEAD; LIVE; DEAD] 4 = Ok LIVE.
Proof.
  assert (setitem [DEAD; DEAD; DEAD] 4 LIVE = Ok [DEAD; LIVE; DEAD]) as H
    by reflexivity.
  split; [exact H|].
  exact (proj1 (proj2 (setitem_then_getitem _ _ 4 LIVE H))).
Defined.

(** X4.  A deletion that succeeds removes the item at the wrapped index
    [k = i mod len(self)] and nothing else: the array is one shorter, the
    items before [k] stay in place and those after it move down by one. *)
Theorem delitem_removes_one {A} (self self' : list A) (i : Z) :
  delitem self i = Ok self' →
  len self' = len self - 1 ∧
  ∀ j : nat,
    self' !! j = if decide (j < Z.to_nat (i mod len self))%nat
                 then self !! j else self !! S j.
Proof.
  intros Hdel. pose proof (len_nonneg self) as Hnn.
  destruct (decide (len self = 0)) as [H0|Hne].
  { apply len_nil_inv in H0 as ->. done. }
  assert (0 < len self) as Hn by lia.
  rewrite delitem_nonempty in Hdel by done. injection Hdel as <-.
  pose proof (Z.mod_pos_bound i (len self) Hn) as Hb.
  split.
  - unfold len in *. rewrite length_delete by (apply lookup_lt_is_Some_2; lia). lia.
  - intros j. case_decide.
    + by apply list_lookup_delete_lt.
    + apply list_lookup_delete_ge. lia.
Qed.

Lemma delitem_removes_one_witness :
  delitem [DEAD; LIVE; DEAD] (-2) = Ok [DEAD; DEAD] ∧
  len [DEAD; DEAD] = len [DEAD; LIVE; DEAD] - 1.
Proof.
  assert (delitem [DEAD; LIVE; DEAD] (-2) = Ok [DEAD; DEAD]) as H by reflexivity.
  split; [exact H|].
  exact (proj1 (delitem_removes_one _ _ (-2) H)).
Defined.

(** *** ToroidalArray: insertion, concatenation, repetition *)

(** X5.  [insert] does not wrap.  The array grows by one; an index at or
    beyond the length appends, an index at or below [-len] prepends; and
    for [0 <= i <= len] the new item is the one read back at [i]. *)
Theorem insert_not_wrapped {A} (self : list A) (i : Z) (v : A) :
  len (insert self i v) = len self + 1 ∧
  (len self ≤ i → insert self i v = self ++ [v]) ∧
  (i ≤ - len self → insert self i v = v :: self) ∧
  (0 ≤ i ≤ len self → getitem (insert self i v) i = Ok v).
Proof.
  pose proof (len_nonneg self) as Hnn.
  assert (∀ k, len (take k self ++ v :: drop k self) = len self + 1) as Hlen.
  { intros k. unfold len. rewrite length_app. simpl.
    rewrite length_take, length_drop. lia. }
  unfold insert, list_insert_at. split; [apply Hlen|].
  split; [|split].
  - intros Hi. destruct (Z.ltb_spec i 0); [lia|].
    rewrite Z.min_r by lia. unfold len. rewrite Nat2Z.id.
    by rewrite take_ge, drop_ge.
  - intros Hi. destruct (Z.ltb_spec i 0).
    + rewrite Z.max_r by lia. done.
    + assert (i = 0) as -> by lia. rewrite Z.min_l by lia. done.
  - intros Hi. destruct (Z.ltb_spec i 0); [lia|]. rewrite Z.min_l by lia.
    destruct (getitem_nonempty (take (Z.to_nat i) self ++ v :: drop (Z.to_nat i) self) i)
      as (v' & Hv' & ->); [rewrite Hlen; lia|].
    rewrite Hlen, Z.mod_small in Hv' by lia.
    rewrite lookup_app_r in Hv' by (rewrite length_take; unfold len in *; lia).
    rewrite length_take_le in Hv' by (unfold len in *; lia).
    rewrite Nat.sub_diag in Hv'. simpl in Hv'. congruence.
Qed.

Lemma insert_not_wrapped_witness :
  len [DEAD; DEAD] ≤ 7 ∧ insert [DEAD; DEAD] 7 LIVE = [DEAD; DEAD] ++ [LIVE].
Proof.
  assert (len [DEAD; DEAD] ≤ 7) as H by (unfold len; simpl; lia).
  split; [exact H|].
  exact (proj1 (proj2 (insert_not_wrapped [DEAD; DEAD] 7 LIVE)) H).
Defined.






(** X7.  In a sum [self + other] the items of [self] are read at
    [0 <= i < len(self)] and those of [other] at [-len(other) <= i < 0];
    the length is the sum of the lengths, and [other + self] through
    [__radd__] puts [other] first. *)
Theorem add_getitem {A} (self other : list A) (i : Z) :
  len (__add__ self other) = len self + len other ∧
  __radd__ self other = __add__ other self ∧
  (0 ≤ i < len self → getitem (__add__ self other) i = getitem self i) ∧
  (- len other ≤ i < 0 → getitem (__add__ self other) i = getitem other i).
Proof.
  pose proof (len_nonneg self) as Hs. pose proof (len_nonneg other) as Ho.
  unfold __add__, __radd__.
  assert (len (self ++ other) = len self + len other) as Hlen
    by (unfold len; rewrite length_app; lia).
  split; [done|]. split; [done|]. split.
  - intros Hi.
    destruct (getitem_nonempty (self ++ other) i) as (v1 & Hv1 & ->); [lia|].
    destruct (getitem_nonempty self i) as (v2 & Hv2 & ->); [lia|].
    rewrite Hlen in Hv1. rewrite Z.mod_small in Hv1, Hv2 by lia.
    rewrite lookup_app_l in Hv1 by (unfold len in *; lia). congruence.
  - intros Hi.
    destruct (getitem_nonempty (self ++ other) i) as (v1 & Hv1 & ->); [lia|].
    destruct (getitem_nonempty other i) as (v2 & Hv2 & ->); [lia|].
    rewrite Hlen in Hv1.
    replace (i mod (len self + len other)) with (i + len self + len other) in Hv1
      by (apply Z.mod_unique_pos with (q := -1); lia).
    replace (i mod len other) with (i + len other) in Hv2
      by (apply Z.mod_unique_pos with (q := -1); lia).
    rewrite lookup_app_r in Hv1 by (unfold len in *; lia).
    replace (Z.to_nat (i + len self + len other) - length self)%nat
      with (Z.to_nat (i + len other)) in Hv1 by (unfold len in *; lia).
    congruence.
Qed.

Lemma add_getitem_witness :
  - len [LIVE; DEAD] ≤ -2 < 0 ∧
  getitem (__add__ [DEAD] [LIVE; DEAD]) (-2) = getitem [LIVE; DEAD] (-2).
Proof.
  assert (- len [LIVE; DEAD] ≤ -2 < 0) as H by (unfold len; simpl; lia).
  split; [exact H|].
  exact (proj2 (proj2 (proj2 (add_getitem [DEAD] [LIVE; DEAD] (-2)))) H).
Defined.

(** *** ToroidalArray: construction *)

Lemma pyobj_induction {A} (P : pyobj A → Prop) :
  (∀ a, P (Atom a)) → (∀ t, P (Text t)) →
  (∀ items, Forall P items → P (Iter items)) →
  ∀ o, P o.
Proof.
  intros Ha Ht Hi. fix IH 1. intros [a|t|items]; [apply Ha|apply Ht|].
  apply Hi. induction items as [|o items IHl]; constructor; [apply IH|apply IHl].
Qed.

Lemma map_erase_Plain {A} (items : list (pyobj A)) :
  map erase (map Plain items) = items.
Proof. induction items as [|o items IH]; [done|]. simpl. by rewrite IH. Qed.

Lemma convert_erase {A} (o : pyobj A) : ∀ depth, erase (convert depth o) = o.
Proof.
  induction o as [a|t|items IH] using pyobj_induction; intros depth; [done|done|].
  simpl. f_equal. destruct (negb (depth - 1 =? 0)); [|apply map_erase_Plain].
  induction IH as [|o items Ho _ IHl]; [done|]. simpl. by rewrite Ho, IHl.
Qed.

(** X8.  Construction changes containers only.  Whatever [recursive] and
    [depth] are, the items of the array stand, in order, for the objects of
    [seq]: nothing is dropped, added or reordered at any level, and an
    item that is not a sequence (a text among them) is never replaced. *)
Theorem init_keeps_items {A} (seq : list (pyobj A)) (recursive : bool) (depth : Z) :
  map erase (__init__ seq recursive depth) = seq ∧
  ∀ (k : nat) o, seq !! k = Some o → (∀ items, o ≠ Iter items) →
                 __init__ seq recursive depth !! k = Some (Plain o).
Proof.
  unfold __init__. split.
  - destruct (recursive && negb (depth =? 0)); [|apply map_erase_Plain].
    induction seq as [|o seq IH]; [done|]. simpl. by rewrite convert_erase, IH.
  - intros k o Hk Ho.
    destruct (recursive && negb (depth =? 0)); rewrite list_lookup_fmap, Hk; simpl;
      [|done].
    destruct o as [a|t|items]; [done|done|]. by destruct (Ho items).
Qed.

Lemma init_keeps_items_witness :
  [Text "ab"; Iter [Atom LIVE]] !! 0%nat = Some (Text "ab") ∧
  __init__ [Text "ab"; Iter [Atom LIVE]] true (-1) !! 0%nat = Some (Plain (Text "ab")).
Proof.
  split; [reflexivity|].
  apply (proj2 (init_keeps_items [Text "ab"; Iter [Atom LIVE]] true (-1)) 0%nat);
    [reflexivity|done].
Defined.

Lemma convert_unlimited {A} (o : pyobj A) :
  ∀ depth, depth < 0 → converted (convert depth o) = true.
Proof.
  induction o as [a|t|items IH] using pyobj_induction; intros depth Hd; [done|done|].
  simpl. destruct (Z.eqb_spec (depth - 1) 0); [lia|]. simpl.
  induction IH as [|o items Ho _ IHl]; [done|]. simpl.
  rewrite Ho by lia. by rewrite IHl.
Qed.

Lemma array_depth_Plain {A} (items : list (pyobj A)) :
  foldr Z.max 0 (map array_depth (map Plain items)) = 0.
Proof. induction items as [|o items IH]; [done|]. simpl. rewrite IH. done. Qed.

Lemma convert_depth {A} (o : pyobj A) :
  ∀ depth, 0 < depth → 0 ≤ array_depth (convert depth o) ≤ depth.
Proof.
  induction o as [a|t|items IH] using pyobj_induction; intros depth Hd;
    [simpl; lia|simpl; lia|].
  simpl. destruct (Z.eqb_spec (depth - 1) 0) as [H0|Hne]; simpl.
  - rewrite array_depth_Plain. lia.
  - assert (0 ≤ foldr Z.max 0 (map array_depth (map (convert (depth - 1)) items))
            ≤ depth - 1) as Hmax; [|lia].
    induction IH as [|o items Ho _ IHl]; simpl; [lia|].
    specialize (Ho (depth - 1)). lia.
Qed.

(** X9.  The depth of the conversion.  With [recursive] set and a
    negative [depth] every sequence is converted, at every level; with a
    [depth] of [d >= 0] no array lies more than [d] levels below the outer
    one; and without [recursive] no item is converted at all. *)
Theorem init_depth {A} (seq : list (pyobj A)) (recursive : bool) (depth : Z) :
  (recursive = true → depth < 0 →
     forallb converted (__init__ seq recursive depth) = true) ∧
  (0 ≤ depth →
     Forall (fun it => 0 ≤ array_depth it ≤ depth) (__init__ seq recursive depth)) ∧
  (recursive = false → __init__ seq recursive depth = map Plain seq).
Proof.
  unfold __init__. split; [|split].
  - intros -> Hd. destruct (Z.eqb_spec depth 0); [lia|]. simpl.
    induction seq as [|o seq IH]; [done|]. simpl.
    by rewrite convert_unlimited, IH.
  - intros Hd. destruct recursive; simpl.
    + destruct (Z.eqb_spec depth 0) as [->|Hne]; simpl.
      * apply Forall_fmap, Forall_true. intros o. simpl. lia.
      * apply Forall_fmap, Forall_true. intros o. simpl.
        apply convert_depth. lia.
    + apply Forall_fmap, Forall_true. intros o. simpl. lia.
  - by intros ->.
Qed.

Lemma init_depth_witness :
  0 ≤ 1 ∧
  Forall (fun it => 0 ≤ array_depth it ≤ 1)
    (__init__ [Iter [Iter [Atom LIVE]]; Atom DEAD] true 1).
Proof.
  split; [lia|].
  apply (proj1 (proj2 (init_depth [Iter [Iter [Atom LIVE]]; Atom DEAD] true 1))). lia.
Defined.

(** *** Grid: construction and access *)

Lemma getitem_elem {A} (self : list A) (i : Z) (v : A) :
  getitem self i = Ok v → v ∈ self.
Proof.
  intros Hget. pose proof (len_nonneg self).
  destruct (decide (len self = 0)) as [H0|Hne].
  { apply len_nil_inv in H0 as ->. done. }
  destruct (getitem_nonempty self i) as (v' & Hv' & Hget'); [lia|].
  rewrite Hget in Hget'. injection Hget' as ->.
  by eapply list_elem_of_lookup_2.
Qed.

(** X10.  [from_2d_seq] raises on a sequence without a row, the exception
    of [max] on an empty sequence, and succeeds on every other: the rows
    are new objects after those of the store, row [y] holds the truth
    values of row [y] of the sequence, in order and whatever its length,
    and no row that was in the store is changed. *)
Theorem from_2d_seq_rows {A} (to_bool : A → bool) (s : store) (items : list (list A)) :
  (items = [] →
     Grid.from_2d_seq to_bool s items =
       Raise (ValueError "max() arg is an empty sequence")) ∧
  (items ≠ [] →
     ∃ g, Grid.from_2d_seq to_bool s items = Ok (s ++ map (map to_bool) items, g) ∧
          Grid.cells g = seq (length s) (length items) ∧
          ∀ (x y : nat) row a, items !! y = Some row → row !! x = Some a →
            cell (s ++ map (map to_bool) items) g (Z.of_nat x) (Z.of_nat y)
              = Some (to_bool a)).
Proof.
  split; [by intros ->|]. intros Hne.
  unfold Grid.from_2d_seq. rewrite new_rows_app, length_map.
  rewrite post_init_cells.
  2:{ apply Forall_forall. intros row [Hlo Hhi]%elem_of_seq.
      apply lookup_lt_is_Some_2. rewrite length_app, length_map. lia. }
  unfold validation. simpl.
  rewrite bool_decide_eq_false_2.
  2:{ intros [= Hnil]. destruct items; [done|]. simpl in Hnil. done. }
  eexists. split; [reflexivity|]. split; [done|].
  intros x y row a Hrow Ha. unfold cell. simpl. rewrite !Nat2Z.id.
  rewrite lookup_seq_lt by (by eapply lookup_lt_Some). simpl.
  rewrite lookup_app_r by lia.
  replace (length s + y - length s)%nat with y by lia.
  rewrite list_lookup_fmap, Hrow. simpl. by rewrite list_lookup_fmap, Ha.
Qed.

Lemma from_2d_seq_rows_witness :
  [[1; 0]; [0]] ≠ [] ∧
  ∃ g, Grid.from_2d_seq py_bool [] [[1; 0]; [0]] = Ok ([[LIVE; DEAD]; [DEAD]], g).
Proof.
  split; [done|].
  destruct (proj2 (from_2d_seq_rows py_bool [] [[1; 0]; [0]])) as (g & Hg & _);
    [done|].
  by exists g.
Defined.

(** X11.  A negative width or height is accepted, and gives a grid
    without a cell: no row when the height is negative, empty rows when
    only the width is.  Every read and write of that grid raises
    [ZeroDivisionError]. *)
Theorem negative_dimension_grid (s : store) (w h : Z) :
  w ≠ 0 → h ≠ 0 → w < 0 ∨ h < 0 →
  ∃ s' g, Grid.post_init s (Some w) (Some h) None = Ok (s', g) ∧
    Grid.width g = Some w ∧ Grid.height g = Some h ∧
    len (Grid.cells g) = Z.max h 0 ∧
    Forall (fun row => s' !! row = Some []) (Grid.cells g) ∧
    ∀ p v, Grid.getitem s' g p = Raise ZeroDivisionError ∧
           Grid.setitem s' g p v = Raise ZeroDivisionError.
Proof.
  intros Hw Hh Hneg. rewrite post_init_no_cells.
  unfold validation, invalid_dimension, missing_dimension. simpl.
  destruct (Z.eqb_spec w 0); [done|]. destruct (Z.eqb_spec h 0); [done|]. simpl.
  eexists _, _. split; [reflexivity|]. simpl.
  split; [done|]. split; [done|].
  split; [unfold len; rewrite length_seq; lia|].
  destruct (decide (h < 0)) as [Hhn|Hhp].
  - replace (Z.to_nat h) with 0%nat by lia. simpl. split; [constructor|]. done.
  - assert (w < 0) as Hwn by lia.
    replace (Z.to_nat w) with 0%nat by lia. simpl.
    assert (Forall (fun row => (s ++ replicate (Z.to_nat h) []) !! row = Some (@nil bool))
              (seq (length s) (Z.to_nat h))) as Hrows.
    { apply Forall_forall. intros row [Hlo Hhi]%elem_of_seq.
      rewrite lookup_app_r by lia. by rewrite lookup_replicate_2 by lia. }
    split; [done|]. intros p v.
    unfold Grid.getitem, Grid.setitem. simpl.
    destruct (getitem (seq (length s) (Z.to_nat h)) (Point.y p)) as [row|e] eqn:Hget.
    + apply getitem_elem in Hget. rewrite Forall_forall in Hrows.
      simpl. unfold deref. by rewrite (Hrows _ Hget).
    + unfold getitem, _wrapped_index, py_mod in Hget.
      destruct (Z.eqb_spec (len (seq (length s) (Z.to_nat h))) 0) as [H0|Hne].
      * unfold len in H0. rewrite length_seq in H0. lia.
      * exfalso. revert Hget.
        destruct (getitem_nonempty (seq (length s) (Z.to_nat h)) (Point.y p))
          as (row & _ & Hrow); [pose proof (len_nonneg (seq (length s) (Z.to_nat h))); lia|].
        unfold getitem, _wrapped_index, py_mod in Hrow.
        destruct (Z.eqb_spec (len (seq (length s) (Z.to_nat h))) 0); [done|].
        by rewrite Hrow.
Qed.

Lemma negative_dimension_grid_witness :
  -1 ≠ 0 ∧ 2 ≠ 0 ∧ (-1 < 0 ∨ 2 < 0) ∧
  ∃ s' g, Grid.post_init [] (Some (-1)) (Some 2) None = Ok (s', g) ∧
          Grid.getitem s' g (Point.mk 0 0) = Raise ZeroDivisionError.
Proof.
  split; [done|]. split; [done|]. split; [left; lia|].
  destruct (negative_dimension_grid [] (-1) 2) as (s' & g & Hg & _ & _ & _ & _ & Hacc);
    [done|done|left; lia|].
  exists s', g. split; [done|]. apply (Hacc (Point.mk 0 0) DEAD).
Defined.

Lemma Grid_setitem_inv (s s' : store) (g : Grid.t) (p : Point.t) (v : bool) :
  Grid.setitem s g p v = Ok s' →
  ∃ row l l', row ∈ Grid.cells g ∧ s !! row = Some l ∧
              length l' = length l ∧ s' = <[row := l']> s.
Proof.
  unfold Grid.setitem.
  destruct (getitem (Grid.cells g) (Point.y p)) as [row|e] eqn:Hrow; [|done].
  apply getitem_elem in Hrow. simpl. unfold deref.
  destruct (s !! row) as [l|] eqn:Hl; [|done]. simpl.
  destruct (setitem l (Point.x p) v) as [l'|e] eqn:Hset; [|done]. simpl.
  intros [= <-]. exists row, l, l'. repeat split; try done.
  unfold setitem in Hset.
  destruct (_wrapped_index l (Point.x p)); [|done]. simpl in Hset.
  destruct (list_position l a); [|done]. simpl in Hset.
  injection Hset as <-. apply length_insert.
Qed.

(** X12.  A grid built on given cells shares them.  Construction neither
    copies nor changes a row: the store is as it was, the rows of the grid
    are the given objects, the attributes are the declared ones ([None]
    when not declared); and a later write through the grid replaces one of
    the given rows. *)
Theorem cells_are_shared (s s' : store) (width height : option Z)
    (rows : list loc) (g : Grid.t) :
  Forall (fun row => is_Some (s !! row)) rows →
  Grid.post_init s width height (Some rows) = Ok (s', g) →
  s' = s ∧ Grid.cells g = rows ∧
  Grid.width g = width ∧ Grid.height g = height ∧
  ∀ p v s'', Grid.setitem s' g p v = Ok s'' →
    ∃ row l, row ∈ rows ∧ s'' = <[row := l]> s.
Proof.
  intros Hrows. rewrite post_init_cells by done.
  destruct (validation s width height (Some rows)); [done|].
  intros [= <- <-]. repeat (split; [done|]).
  intros p v s'' Hset.
  destruct (Grid_setitem_inv _ _ _ _ _ Hset) as (row & l & l' & Hin & _ & _ & ->).
  by exists row, l'.
Qed.

Lemma cells_are_shared_witness :
  Forall (fun row => is_Some (sample_store !! row)) [0%nat; 1%nat; 2%nat] ∧
  Grid.post_init sample_store None (Some 3) (Some [0%nat; 1%nat; 2%nat]) =
    Ok (sample_store, Grid.mk None (Some 3) [0%nat; 1%nat; 2%nat]) ∧
  Grid.cells (Grid.mk None (Some 3) [0%nat; 1%nat; 2%nat]) = [0%nat; 1%nat; 2%nat].
Proof.
  assert (Forall (fun row => is_Some (sample_store !! row)) [0%nat; 1%nat; 2%nat]) as H
    by (repeat constructor; by eexists).
  assert (Grid.post_init sample_store None (Some 3) (Some [0%nat; 1%nat; 2%nat]) =
            Ok (sample_store, Grid.mk None (Some 3) [0%nat; 1%nat; 2%nat])) as Hinit
    by reflexivity.
  split; [exact H|]. split; [exact Hinit|].
  exact (proj1 (proj2 (cells_are_shared _ _ _ _ _ _ H Hinit))).
Defined.

(** X13.  Access to a grid is periodic in both directions: on a grid of
    [w] columns and [h] rows, reading or writing at a point moved by [a]
    widths and [b] heights does what it does at the point itself. *)
Theorem grid_access_periodic (s : store) (g : Grid.t) (w h a b : Z)
    (p : Point.t) (v : bool) :
  has_dims s g w h = true →
  Grid.getitem s g (Point.add p (Point.mk (a * w) (b * h))) = Grid.getitem s g p ∧
  Grid.setitem s g (Point.add p (Point.mk (a * w) (b * h))) v = Grid.setitem s g p v.
Proof.
  intros Hd. pose proof (has_dims_len _ _ _ _ Hd) as Hlen.
  assert (getitem (Grid.cells g) (Point.y p + b * h) =
          getitem (Grid.cells g) (Point.y p)) as Hy.
  { rewrite <- Hlen. unfold getitem. by rewrite wrapped_index_shift. }
  unfold Grid.getitem, Grid.setitem. simpl. rewrite Hy.
  destruct (getitem (Grid.cells g) (Point.y p)) as [row|e] eqn:Hrow; [|done].
  apply getitem_elem in Hrow.
  destruct (has_dims_elem _ _ _ _ row Hd Hrow) as (l & Hl & Hlw).
  simpl. unfold deref. rewrite Hl. simpl. rewrite <- Hlw.
  unfold getitem, setitem. by rewrite !wrapped_index_shift.
Qed.

Lemma grid_access_periodic_witness :
  has_dims sample_store blinker 3 3 = true ∧
  Grid.getitem sample_store blinker (Point.add (Point.mk 1 1) (Point.mk (2 * 3) (-1 * 3)))
    = Grid.getitem sample_store blinker (Point.mk 1 1).
Proof.
  split; [reflexivity|].
  apply (proj1 (grid_access_periodic sample_store blinker 3 3 2 (-1) (Point.mk 1 1) DEAD
                  eq_refl)).
Defined.

(** X14.  A write to a grid of positive dimensions succeeds and is read
    back at the same point; the dimensions stay, and no row of another
    grid is touched.  When the rows of the grid are distinct objects,
    every cell that is not the wrapped target keeps its state. *)
Theorem grid_setitem_then_getitem (s : store) (g : Grid.t) (w h : Z)
    (p : Point.t) (v : bool) :
  0 < w → 0 < h → has_dims s g w h = true →
  ∃ s', Grid.setitem s g p v = Ok s' ∧
        Grid.getitem s' g p = Ok v ∧
        has_dims s' g w h = true ∧
        (∀ row, row ∉ Grid.cells g → s' !! row = s !! row) ∧
        (NoDup (Grid.cells g) →
         ∀ q, (Point.x q mod w, Point.y q mod h) ≠ (Point.x p mod w, Point.y p mod h) →
              Grid.getitem s' g q = Grid.getitem s g q).
Proof.
  intros Hw Hh Hd.
  pose proof (Z.mod_pos_bound (Point.x p) w Hw) as Hx.
  pose proof (Z.mod_pos_bound (Point.y p) h Hh) as Hy.
  eexists. split; [by apply (Grid_setitem_wrap s g w h)|].
  set (s' := write s g (Point.x p mod w) (Point.y p mod h) v).
  assert (has_dims s' g w h = true) as Hd' by (unfold s'; by rewrite has_dims_write).
  split.
  { destruct (Grid_getitem_wrap s' g w h p Hw Hh Hd') as (b & Hb & ->).
    unfold s' in Hb. rewrite (cell_write_same s g w h) in Hb by done. congruence. }
  split; [done|]. split; [intros row Hrow; by apply write_frame|].
  intros Hnd q Hq.
  pose proof (Z.mod_pos_bound (Point.x q) w Hw) as Hqx.
  pose proof (Z.mod_pos_bound (Point.y q) h Hh) as Hqy.
  destruct (Grid_getitem_wrap s' g w h q Hw Hh Hd') as (b1 & Hb1 & ->).
  destruct (Grid_getitem_wrap s g w h q Hw Hh Hd) as (b2 & Hb2 & ->).
  unfold s' in Hb1. rewrite (cell_write_other s g w h) in Hb1 by done.
  congruence.
Qed.

Lemma grid_setitem_then_getitem_witness :
  0 < 3 ∧ has_dims sample_store blinker 3 3 = true ∧
  ∃ s', Grid.setitem sample_store blinker (Point.mk 4 (-1)) LIVE = Ok s' ∧
        Grid.getitem s' blinker (Point.mk 4 (-1)) = Ok LIVE.
Proof.
  split; [lia|]. split; [reflexivity|].
  destruct (grid_setitem_then_getitem sample_store blinker 3 3 (Point.mk 4 (-1)) LIVE)
    as (s' & Hset & Hget & _); [lia|lia|reflexivity|].
  by exists s'.
Defined.

(** *** Grid: the live cells *)

Lemma iter_row_filter (P : Point.t → Prop) `{!∀ p, Decision (P p)}
    (y : Z) (l : list bool) (x0 : Z) :
  (∀ (k : nat) c, l !! k = Some c → (P (Point.mk (x0 + Z.of_nat k) y) ↔ c = true)) →
  Grid.iter_row y (enumerate_from x0 l) =
    filter P (map (fun x => Point.mk x y) (seqZ x0 (len l))).
Proof.
  revert x0. induction l as [|c l IH]; intros x0 HP; [done|].
  assert (len (c :: l) = Z.succ (len l)) as -> by apply Nat2Z.inj_succ.
  pose proof (len_nonneg l) as Hnn.
  rewrite seqZ_cons by lia. rewrite Z.pred_succ. simpl.
  rewrite filter_cons. rewrite IH.
  2:{ intros k c' Hk. rewrite <- (HP (S k) c' Hk).
      by replace (x0 + 1 + Z.of_nat k) with (x0 + Z.of_nat (S k)) by lia. }
  specialize (HP 0%nat c eq_refl). rewrite Z.add_0_r in HP.
  rewrite Z.add_1_r.
  destruct c; case_decide as HPd; try done.
  - destruct HPd. by apply HP.
  - by apply HP in HPd.
Qed.

Lemma iter_rows_filter (P : Point.t → Prop) `{!∀ p, Decision (P p)}
    (s : store) (w : Z) (rows : list loc) (y0 : Z) :
  (∀ (k : nat) row, rows !! k = Some row →
     ∃ l, s !! row = Some l ∧ len l = w ∧
          ∀ (j : nat) c, l !! j = Some c →
            (P (Point.mk (Z.of_nat j) (y0 + Z.of_nat k)) ↔ c = true)) →
  Grid.iter_rows s (enumerate_from y0 rows) =
    Ok (filter P (y ← seqZ y0 (len rows); x ← range w; [Point.mk x y])).
Proof.
  revert y0. induction rows as [|row rows IH]; intros y0 HP; [done|].
  assert (len (row :: rows) = Z.succ (len rows)) as -> by apply Nat2Z.inj_succ.
  pose proof (len_nonneg rows) as Hnn.
  rewrite seqZ_cons by lia. rewrite Z.pred_succ, bind_cons, filter_app.
  cbn [enumerate_from Grid.iter_rows].
  destruct (HP 0%nat row eq_refl) as (l & Hl & Hlw & HPl).
  unfold deref. rewrite Hl. cbn [mbind result_bind].
  rewrite Z.add_1_r. rewrite IH.
  2:{ intros k row' Hk. destruct (HP (S k) row' Hk) as (l' & Hl' & Hlw' & HPl').
      exists l'. split; [done|]. split; [done|]. intros j c Hj.
      rewrite <- (HPl' j c Hj).
      by replace (Z.succ y0 + Z.of_nat k) with (y0 + Z.of_nat (S k)) by lia. }
  cbn [mbind result_bind]. do 2 f_equal.
  rewrite row_points_bind. unfold enumerate, range. rewrite <- Hlw.
  apply iter_row_filter. intros k c Hk. rewrite <- (HPl k c Hk).
  by rewrite Z.add_0_l, Z.add_0_r.
Qed.

Lemma Grid_iter_filter (s : store) (g : Grid.t) (w h : Z) :
  has_dims s g w h = true →
  Grid.__iter__ s g = Ok (filter (is_live s g) (positions w h)).
Proof.
  intros Hd. pose proof (has_dims_len _ _ _ _ Hd) as Hlen.
  unfold Grid.__iter__, enumerate, positions, range. rewrite <- Hlen.
  apply iter_rows_filter. intros k row Hk.
  destruct (has_dims_elem _ _ _ _ row Hd) as (l & Hl & Hlw).
  { by eapply list_elem_of_lookup_2. }
  exists l. split; [done|]. split; [done|]. intros j c Hj.
  unfold is_live, cell. simpl. rewrite Z.add_0_l, !Nat2Z.id, Hk. simpl.
  rewrite Hl. simpl. rewrite Hj. split; [by intros [= ->]|by intros ->].
Qed.

(** X15.  On a grid of [w] columns and [h] rows, [__iter__] gives the
    points of the live cells and no other, each once, row after row and
    from left to right within a row; [__len__] is their number; and a
    point of the grid is among them exactly when [__contains__] answers
    [True] for it. *)
Theorem grid_iter_live_cells (s : store) (g : Grid.t) (w h : Z) :
  has_dims s g w h = true →
  Grid.__iter__ s g = Ok (filter (is_live s g) (positions w h)) ∧
  Grid.__len__ s g = Ok (len (filter (is_live s g) (positions w h))) ∧
  NoDup (filter (is_live s g) (positions w h)) ∧
  0 ≤ len (filter (is_live s g) (positions w h)) ≤ w * h ∧
  ∀ p, in_extent w h p →
       (p ∈ filter (is_live s g) (positions w h) ↔ Grid.__contains__ s g p = Ok true).
Proof.
  intros Hd. pose proof (Grid_iter_filter s g w h Hd) as Hiter.
  split; [done|]. split; [unfold Grid.__len__; by rewrite Hiter|].
  split; [apply NoDup_filter, positions_NoDup|].
  split.
  { split; [apply len_nonneg|].
    assert (len (positions w h) = Z.max w 0 * Z.max h 0) as Hpos.
    { unfold positions, range.
      assert (∀ ys, len (y ← ys; x ← seqZ 0 w; [Point.mk x y])
                    = Z.max w 0 * len ys) as Hall.
      { intros ys. induction ys as [|y ys IH]; [unfold len; simpl; lia|].
        rewrite bind_cons. unfold len in *. rewrite length_app, Nat2Z.inj_add, IH.
        rewrite row_points_bind. unfold range.
        rewrite length_map, length_seqZ. simpl length. lia. }
      rewrite Hall. unfold len. rewrite length_seqZ. lia. }
    pose proof (length_filter (is_live s g) (positions w h)) as Hle.
    pose proof (has_dims_len _ _ _ _ Hd). pose proof (len_nonneg (Grid.cells g)).
    unfold len in *.
    destruct (decide (0 ≤ w)); [rewrite !Z.max_l in Hpos by lia; lia|].
    destruct (decide (0 < h)) as [Hpos_h|]; [|assert (h = 0) as -> by lia; lia].
    destruct (has_dims_row s g w h 0 Hd) as (row & l & _ & _ & Hlw); [lia|].
    pose proof (len_nonneg l). unfold len in *. lia. }
  intros [x y] [Hx Hy]. simpl in Hx, Hy.
  assert (0 < w) as Hw by lia. assert (0 < h) as Hh by lia.
  unfold Grid.__contains__.
  destruct (Grid_getitem_wrap s g w h (Point.mk x y) Hw Hh Hd) as (b & Hb & ->).
  simpl in Hb. rewrite (Z.mod_small x), (Z.mod_small y) in Hb by lia.
  rewrite list_elem_of_filter. unfold is_live. simpl. rewrite Hb.
  split.
  - by intros [[= ->] _].
  - intros [= ->]. split; [done|]. by apply positions_complete.
Qed.

Lemma grid_iter_live_cells_witness :
  has_dims sample_store blinker 3 3 = true ∧
  Grid.__iter__ sample_store blinker = Ok [Point.mk 0 1; Point.mk 1 1; Point.mk 2 1].
Proof.
  split; [reflexivity|].
  rewrite (proj1 (grid_iter_live_cells sample_store blinker 3 3 eq_refl)).
  reflexivity.
Defined.

(** *** Grid: randomize *)

Section Randomize.
Context (rnd : nat → Q) (k : Q) (g : Grid.t) (w h : Z).
Hypothesis Hw : 0 < w.
Hypothesis Hh : 0 < h.

Lemma randomize_row_run (y : Z) (m : nat) :
  0 ≤ y < h →
  ∀ (s : store) (n : nat) (x0 : Z),
    has_dims s g w h = true → 0 ≤ x0 → x0 + Z.of_nat m ≤ w →
    ∃ s', Grid.randomize_row rnd k s n g y (seqZ x0 (Z.of_nat m)) = Ok (s', (n + m)%nat) ∧
          has_dims s' g w h = true ∧
          (∀ row, row ∉ Grid.cells g → s' !! row = s !! row) ∧
          (NoDup (Grid.cells g) →
           ∀ x y', 0 ≤ x < w → 0 ≤ y' < h →
             cell s' g x y' =
               if decide (y' = y ∧ x0 ≤ x < x0 + Z.of_nat m)
               then Some (float_lt (rnd (n + Z.to_nat (x - x0))%nat) k)
               else cell s g x y').
Proof.
  intros Hy. induction m as [|m IH]; intros s n x0 Hd Hx0 Hm.
  { exists s. simpl. rewrite Nat.add_0_r. repeat split; try done.
    intros _ x y' _ _. rewrite decide_False; [done|lia]. }
  rewrite seqZ_cons by lia.
  replace (Z.pred (Z.of_nat (S m))) with (Z.of_nat m) by lia.
  cbn [Grid.randomize_row].
  rewrite (Grid_setitem_wrap s g w h) by done. cbn [mbind result_bind Point.x Point.y].
  rewrite (Z.mod_small x0), (Z.mod_small y) by lia.
  set (v := float_lt (rnd n) k).
  destruct (IH (write s g x0 y v) (S n) (Z.succ x0)) as (s' & Hrun & Hd' & Hframe & Hcell);
    [by rewrite has_dims_write|lia|lia|].
  exists s'. split; [by rewrite Hrun, Nat.add_succ_r|]. split; [done|].
  split.
  { intros row Hrow. rewrite Hframe by done. by apply write_frame. }
  intros Hnd x y' Hx Hy'. rewrite Hcell by done.
  destruct (decide (y' = y ∧ Z.succ x0 ≤ x < Z.succ x0 + Z.of_nat m)) as [[-> Hin]|Hout].
  - rewrite decide_True by lia. do 3 f_equal. lia.
  - destruct (decide ((x, y') = (x0, y))) as [[= -> ->]|Hne].
    + rewrite (cell_write_same s g w h) by (try done; lia).
      rewrite decide_True by lia. unfold v. do 3 f_equal. lia.
    + rewrite (cell_write_other s g w h) by (try done; lia).
      rewrite decide_False; [done|]. intros [-> Hin]. apply Hne. f_equal. lia.
Qed.

Lemma randomize_rows_run (m : nat) :
  Grid.width g = Some w →
  ∀ (s : store) (n : nat) (y0 : Z),
    has_dims s g w h = true → 0 ≤ y0 → y0 + Z.of_nat m ≤ h →
    ∃ s', Grid.randomize_rows rnd k s n g (seqZ y0 (Z.of_nat m))
            = Ok (s', (n + m * Z.to_nat w)%nat) ∧
          has_dims s' g w h = true ∧
          (∀ row, row ∉ Grid.cells g → s' !! row = s !! row) ∧
          (NoDup (Grid.cells g) →
           ∀ x y, 0 ≤ x < w → 0 ≤ y < h →
             cell s' g x y =
               if decide (y0 ≤ y < y0 + Z.of_nat m)
               then Some (float_lt (rnd (n + Z.to_nat ((y - y0) * w + x))%nat) k)
               else cell s g x y).
Proof.
  intros Hwidth. induction m as [|m IH]; intros s n y0 Hd Hy0 Hm.
  { exists s. simpl. rewrite Nat.add_0_r. repeat split; try done.
    intros _ x y _ _. rewrite decide_False; [done|lia]. }
  rewrite seqZ_cons by lia.
  replace (Z.pred (Z.of_nat (S m))) with (Z.of_nat m) by lia.
  cbn [Grid.randomize_rows]. rewrite Hwidth. cbn [range_of mbind result_bind].
  unfold range.
  destruct (randomize_row_run y0 (Z.to_nat w) ltac:(lia) s n 0)
    as (s1 & Hrow & Hd1 & Hframe1 & Hcell1); [done|lia|lia|].
  rewrite Z2Nat.id in Hrow by lia. rewrite Hrow. cbn [mbind result_bind].
  destruct (IH s1 (n + Z.to_nat w)%nat (Z.succ y0)) as (s' & Hrun & Hd' & Hframe & Hcell);
    [done|lia|lia|].
  exists s'. split.
  { rewrite Hrun. do 2 f_equal. lia. }
  split; [done|]. split.
  { intros row Hrow'. rewrite Hframe by done. by apply Hframe1. }
  intros Hnd x y Hx Hy. rewrite Hcell, Hcell1 by done.
  destruct (decide (Z.succ y0 ≤ y < Z.succ y0 + Z.of_nat m)) as [Hin|Hout].
  - rewrite decide_True by lia. do 3 f_equal. nia.
  - destruct (decide (y = y0 ∧ 0 ≤ x < 0 + Z.of_nat (Z.to_nat w))) as [[-> _]|Hne].
    + rewrite decide_True by lia. do 3 f_equal. lia.
    + rewrite decide_False; [done|lia].
Qed.

Lemma randomize_run (s : store) (n : nat) :
  has_dims s g w h = true →
  Grid.width g = Some w → Grid.height g = Some h →
  ∃ s', Grid.randomize rnd k s n g = Ok (s', (n + Z.to_nat (w * h))%nat) ∧
        has_dims s' g w h = true ∧
        (∀ row, row ∉ Grid.cells g → s' !! row = s !! row) ∧
        (NoDup (Grid.cells g) →
         ∀ x y, 0 ≤ x < w → 0 ≤ y < h →
           cell s' g x y = Some (float_lt (rnd (n + Z.to_nat (y * w + x))%nat) k)).
Proof.
  intros Hd Hwidth Hheight. unfold Grid.randomize. rewrite Hheight.
  cbn [range_of mbind result_bind]. unfold range.
  destruct (randomize_rows_run (Z.to_nat h) Hwidth s n 0)
    as (s' & Hrun & Hd' & Hframe & Hcell); [done|lia|lia|].
  rewrite Z2Nat.id in Hrun by lia.
  exists s'. split.
  { rewrite Hrun. do 2 f_equal. rewrite Z2Nat.inj_mul by lia. lia. }
  split; [done|]. split; [done|].
  intros Hnd x y Hx Hy. rewrite Hcell by done.
  rewrite decide_True by lia. by rewrite Z.sub_0_r.
Qed.

End Randomize.

Section RandomizeAll.
Context (rnd : nat → Q) (k : Q) (g : Grid.t) (w h : Z) (P : bool → Prop).
Hypothesis Hw : 0 < w.
Hypothesis Hh : 0 < h.
Hypothesis HP : ∀ i, P (float_lt (rnd i) k).

Lemma randomize_row_all (y : Z) (m : nat) :
  0 ≤ y < h →
  ∀ (s : store) (n : nat) (x0 : Z) (s' : store) (n' : nat),
    has_dims s g w h = true → 0 ≤ x0 → x0 + Z.of_nat m ≤ w →
    Grid.randomize_row rnd k s n g y (seqZ x0 (Z.of_nat m)) = Ok (s', n') →
    (∀ x y', 0 ≤ x < w → 0 ≤ y' < h →
       (∃ b, cell s g x y' = Some b ∧ P b) → ∃ b, cell s' g x y' = Some b ∧ P b) ∧
    (∀ x, x0 ≤ x < x0 + Z.of_nat m → ∃ b, cell s' g x y = Some b ∧ P b).
Proof.
  intros Hy. induction m as [|m IH]; intros s n x0 s' n' Hd Hx0 Hm.
  { simpl. intros [= <- <-]. split; [done|]. intros x Hx. lia. }
  rewrite seqZ_cons by lia.
  replace (Z.pred (Z.of_nat (S m))) with (Z.of_nat m) by lia.
  cbn [Grid.randomize_row].
  rewrite (Grid_setitem_wrap s g w h) by done. cbn [mbind result_bind Point.x Point.y].
  rewrite (Z.mod_small x0), (Z.mod_small y) by lia.
  set (v := float_lt (rnd n) k). intros Hrun.
  destruct (IH (write s g x0 y v) (S n) (Z.succ x0) s' n') as [Hkeep Hnew];
    [by rewrite has_dims_write|lia|lia|done|].
  assert (∀ x y', 0 ≤ x < w → 0 ≤ y' < h →
            (∃ b, cell s g x y' = Some b ∧ P b) →
            ∃ b, cell (write s g x0 y v) g x y' = Some b ∧ P b) as Hstep.
  { intros x y' Hx Hy' Hold.
    rewrite (cell_write_alias s g w h x y' (Point.mk x0 y)) by (try done; split; simpl; lia).
    destruct (aliases g x y' (Point.mk x0 y)); [|done]. exists v. split; [done|apply HP]. }
  split.
  - intros x y' Hx Hy' Hold. apply Hkeep; [done|done|]. by apply Hstep.
  - intros x Hx. destruct (decide (x = x0)) as [->|Hne]; [|apply Hnew; lia].
    apply Hkeep; [lia|done|]. exists v. split; [|apply HP].
    apply (cell_write_same s g w h); [done|lia|done].
Qed.

Lemma randomize_rows_all (m : nat) :
  Grid.width g = Some w →
  ∀ (s : store) (n : nat) (y0 : Z) (s' : store) (n' : nat),
    has_dims s g w h = true → 0 ≤ y0 → y0 + Z.of_nat m ≤ h →
    Grid.randomize_rows rnd k s n g (seqZ y0 (Z.of_nat m)) = Ok (s', n') →
    (∀ x y, 0 ≤ x < w → 0 ≤ y < h →
       (∃ b, cell s g x y = Some b ∧ P b) → ∃ b, cell s' g x y = Some b ∧ P b) ∧
    (∀ x y, 0 ≤ x < w → y0 ≤ y < y0 + Z.of_nat m → ∃ b, cell s' g x y = Some b ∧ P b).
Proof.
  intros Hwidth. induction m as [|m IH]; intros s n y0 s' n' Hd Hy0 Hm.
  { simpl. intros [= <- <-]. split; [done|]. intros x y Hx Hy. lia. }
  rewrite seqZ_cons by lia.
  replace (Z.pred (Z.of_nat (S m))) with (Z.of_nat m) by lia.
  cbn [Grid.randomize_rows]. rewrite Hwidth. cbn [range_of mbind result_bind].
  unfold range.
  destruct (randomize_row_run rnd k g w h Hw Hh y0 (Z.to_nat w) ltac:(lia) s n 0)
    as (s1 & Hrow & Hd1 & _); [done|lia|lia|].
  pose proof (randomize_row_all y0 (Z.to_nat w) ltac:(lia) s n 0 s1 _ Hd ltac:(lia)
                ltac:(lia) Hrow) as [Hkeep1 Hnew1].
  rewrite Z2Nat.id in Hrow by lia. rewrite Hrow. cbn [mbind result_bind].
  intros Hrun.
  destruct (IH s1 _ (Z.succ y0) s' n' Hd1 ltac:(lia) ltac:(lia) Hrun) as [Hkeep Hnew].
  split.
  - intros x y Hx Hy Hold. apply Hkeep; [done|done|]. by apply Hkeep1.
  - intros x y Hx Hy. destruct (decide (y = y0)) as [->|Hne]; [|apply Hnew; lia].
    apply Hkeep; [done|lia|]. apply Hnew1. lia.
Qed.

Lemma randomize_all (s s' : store) (n n' : nat) :
  has_dims s g w h = true →
  Grid.width g = Some w → Grid.height g = Some h →
  Grid.randomize rnd k s n g = Ok (s', n') →
  ∀ x y, 0 ≤ x < w → 0 ≤ y < h → ∃ b, cell s' g x y = Some b ∧ P b.
Proof.
  intros Hd Hwidth Hheight. unfold Grid.randomize. rewrite Hheight.
  cbn [range_of mbind result_bind]. unfold range.
  replace (seqZ 0 h) with (seqZ 0 (Z.of_nat (Z.to_nat h))) by (by rewrite Z2Nat.id by lia).
  intros Hrun x y Hx Hy.
  destruct (randomize_rows_all (Z.to_nat h) Hwidth s n 0 s' n' Hd ltac:(lia) ltac:(lia) Hrun)
    as [_ Hnew].
  apply Hnew; lia.
Qed.

End RandomizeAll.

(** X16.  On a grid whose rows are distinct objects and whose [width] and
    [height] are its real, positive dimensions, [randomize] succeeds and
    draws one number for each cell, [w * h] in all, row after row: the
    cell (x, y) is live exactly when the draw of rank [y * w + x] is less
    than [k].  The dimensions stay and no row of another grid is
    touched. *)
Theorem randomize_draws (rnd : nat → Q) (k : Q) (s : store) (n : nat)
    (g : Grid.t) (w h : Z) :
  0 < w → 0 < h → has_dims s g w h = true →
  Grid.width g = Some w → Grid.height g = Some h →
  NoDup (Grid.cells g) →
  ∃ s', Grid.randomize rnd k s n g = Ok (s', (n + Z.to_nat (w * h))%nat) ∧
        has_dims s' g w h = true ∧
        (∀ row, row ∉ Grid.cells g → s' !! row = s !! row) ∧
        (∀ x y, 0 ≤ x < w → 0 ≤ y < h →
           cell s' g x y = Some (float_lt (rnd (n + Z.to_nat (y * w + x))%nat) k)).
Proof.
  intros Hw Hh Hd Hwidth Hheight Hnd.
  destruct (randomize_run rnd k g w h Hw Hh s n Hd Hwidth Hheight)
    as (s' & Hrun & Hd' & Hframe & Hcell).
  exists s'. repeat (split; [done|]). by apply Hcell.
Qed.

Lemma randomize_draws_witness :
  0 < 3 ∧ has_dims sample_store blinker 3 3 = true ∧
  Grid.width blinker = Some 3 ∧ Grid.height blinker = Some 3 ∧
  NoDup (Grid.cells blinker) ∧
  ∃ s', Grid.randomize (fun i => Z.of_nat i # 9) (1 # 2) sample_store 0 blinker
          = Ok (s', 9%nat) ∧
        cell s' blinker 1 1 = Some LIVE ∧ cell s' blinker 2 1 = Some DEAD.
Proof.
  assert (NoDup (Grid.cells blinker)) as Hnd by compute_done.
  split; [lia|]. repeat (split; [reflexivity|]). split; [exact Hnd|].
  destruct (randomize_draws (fun i => Z.of_nat i # 9) (1 # 2) sample_store 0 blinker 3 3)
    as (s' & Hrun & _ & _ & Hcell);
    [lia|lia|reflexivity|reflexivity|reflexivity|exact Hnd|].
  exists s'. split; [done|]. split; rewrite Hcell by lia; reflexivity.
Defined.

(** X17.  [randomize] needs the attributes.  It raises [TypeError] when
    [height] is [None], and when [height] is positive and [width] is
    [None]; with a [height] that is not positive it does nothing, whatever
    [width] is. *)
Theorem randomize_needs_attributes (rnd : nat → Q) (k : Q) (s : store) (n : nat)
    (g : Grid.t) :
  (Grid.height g = None → Grid.randomize rnd k s n g = Raise TypeError) ∧
  (∀ h, Grid.height g = Some h → 0 < h → Grid.width g = None →
        Grid.randomize rnd k s n g = Raise TypeError) ∧
  (∀ h, Grid.height g = Some h → h ≤ 0 → Grid.randomize rnd k s n g = Ok (s, n)).
Proof.
  unfold Grid.randomize. split; [by intros ->|]. split.
  - intros h -> Hh Hwidth. cbn [range_of mbind result_bind]. unfold range.
    rewrite seqZ_cons by lia. cbn [Grid.randomize_rows]. by rewrite Hwidth.
  - intros h -> Hh. cbn [range_of mbind result_bind]. unfold range, seqZ.
    by replace (Z.to_nat h) with 0%nat by lia.
Qed.

Lemma randomize_needs_attributes_witness :
  Grid.height (Grid.mk None None [0%nat]) = None ∧
  Grid.randomize (fun _ => 0%Q) (1 # 2) [[DEAD]] 0 (Grid.mk None None [0%nat])
    = Raise TypeError.
Proof.
  split; [reflexivity|].
  apply (proj1 (randomize_needs_attributes (fun _ => 0%Q) (1 # 2) [[DEAD]] 0
                  (Grid.mk None None [0%nat]))).
  reflexivity.
Defined.

(** X18.  A grid built by [from_2d_seq] cannot be randomized: the call
    raises [TypeError], whatever the cells, the random source and [k]. *)
Theorem randomize_after_from_2d_seq {A} (to_bool : A → bool) (s s' st : store)
    (items : list (list A)) (g : Grid.t) (rnd : nat → Q) (k : Q) (n : nat) :
  Grid.from_2d_seq to_bool s items = Ok (s', g) →
  Grid.randomize rnd k st n g = Raise TypeError.
Proof.
  intros [_ Hheight]%from_2d_seq_attributes.
  unfold Grid.randomize. by rewrite Hheight.
Qed.

Lemma randomize_after_from_2d_seq_witness :
  Grid.from_2d_seq py_bool [] [[1; 0]] = Ok ([[LIVE; DEAD]], Grid.mk None None [0%nat]) ∧
  Grid.randomize (fun _ => 0%Q) (1 # 2) [[LIVE; DEAD]] 0 (Grid.mk None None [0%nat])
    = Raise TypeError.
Proof.
  assert (Grid.from_2d_seq py_bool [] [[1; 0]]
            = Ok ([[LIVE; DEAD]], Grid.mk None None [0%nat])) as H by reflexivity.
  split; [exact H|].
  exact (randomize_after_from_2d_seq py_bool [] _ [[LIVE; DEAD]] _ _
           (fun _ => 0%Q) (1 # 2) 0%nat H).
Defined.

(** X19.  The two ends of [k].  On a grid whose [width] and [height]
    are its real, positive dimensions, and with every draw in [0, 1), as
    [random.random()] gives them, [randomize(k)] succeeds and leaves
    every cell dead when [k <= 0] and every cell live when [k >= 1],
    also when rows of the grid are one object. *)
Theorem randomize_extremes (rnd : nat → Q) (k : Q) (s : store) (n : nat)
    (g : Grid.t) (w h : Z) :
  0 < w → 0 < h → has_dims s g w h = true →
  Grid.width g = Some w → Grid.height g = Some h →
  (∀ i, (0 <= rnd i)%Q ∧ (rnd i < 1)%Q) →
  ∃ s' n', Grid.randomize rnd k s n g = Ok (s', n') ∧
    ((k <= 0)%Q → ∀ x y, 0 ≤ x < w → 0 ≤ y < h → cell s' g x y = Some DEAD) ∧
    ((1 <= k)%Q → ∀ x y, 0 ≤ x < w → 0 ≤ y < h → cell s' g x y = Some LIVE).
Proof.
  intros Hw Hh Hd Hwidth Hheight Hrnd.
  destruct (randomize_run rnd k g w h Hw Hh s n Hd Hwidth Hheight)
    as (s' & Hrun & _).
  exists s', (n + Z.to_nat (w * h))%nat. split; [done|]. split.
  - intros Hk x y Hx Hy.
    destruct (randomize_all rnd k g w h (fun b => b = DEAD) Hw Hh) with
      (s := s) (s' := s') (n := n) (n' := (n + Z.to_nat (w * h))%nat) (x := x) (y := y)
      as (b & Hb & ->); try done.
    intros i. unfold float_lt. destruct (Hrnd i) as [H0 _].
    assert (Qle_bool k (rnd i) = true) as ->; [|done].
    apply Qle_bool_iff. by eapply Qle_trans.
  - intros Hk x y Hx Hy.
    destruct (randomize_all rnd k g w h (fun b => b = LIVE) Hw Hh) with
      (s := s) (s' := s') (n := n) (n' := (n + Z.to_nat (w * h))%nat) (x := x) (y := y)
      as (b & Hb & ->); try done.
    intros i. unfold float_lt. destruct (Hrnd i) as [_ H1].
    destruct (Qle_bool k (rnd i)) eqn:Hle; [|done].
    apply Qle_bool_iff in Hle. exfalso.
    apply (Qlt_irrefl 1). eapply Qle_lt_trans; [exact Hk|].
    eapply Qle_lt_trans; [exact Hle|exact H1].
Qed.

Lemma randomize_extremes_witness :
  0 < 3 ∧ has_dims still_store folded 3 3 = true ∧
  Grid.width folded = Some 3 ∧ Grid.height folded = Some 3 ∧
  (∀ i : nat, (0 <= (fun _ => 1 # 3) i)%Q ∧ ((fun _ => 1 # 3) i < 1)%Q) ∧
  ∃ s' n', Grid.randomize (fun _ => 1 # 3) 1 still_store 0 folded = Ok (s', n') ∧
           cell s' folded 0 0 = Some LIVE.
Proof.
  assert (∀ i : nat, (0 <= (fun _ => 1 # 3) i)%Q ∧ ((fun _ => 1 # 3) i < 1)%Q) as Hrnd
    by (intros _; split; reflexivity || (by compute)).
  split; [lia|]. repeat (split; [reflexivity|]). split; [exact Hrnd|].
  destruct (randomize_extremes (fun _ => 1 # 3) 1 still_store 0 folded 3 3)
    as (s' & n' & Hrun & _ & Hlive);
    [lia|lia|reflexivity|reflexivity|reflexivity|exact Hrnd|].
  exists s', n'. split; [done|]. apply Hlive; [by compute|lia|lia].
Defined.

(** *** The generation step: counts, uniform grids, two buffers *)

Lemma live_count_bounds (s : store) (g : Grid.t) (w h x y : Z) :
  0 ≤ live_count s g w h x y ≤ 8.
Proof.
  unfold live_count. change 8 with (len offsets).
  induction offsets as [|[dx dy] ds IH]; [done|].
  assert (len ((dx, dy) :: ds) = Z.succ (len ds)) as -> by apply Nat2Z.inj_succ.
  simpl. destruct (default false _); simpl; lia.
Qed.

(** X20.  On a grid of positive dimensions the count of live neighbours
    is computed at every point, in or out of the grid, without raising,
    and lies between 0 and 8. *)
Theorem neighbor_count_bounds (s : store) (g : Grid.t) (w h : Z) (p : Point.t) :
  0 < w → 0 < h → has_dims s g w h = true →
  ∃ n, sum_neighbors s g p dirs = Ok n ∧ 0 ≤ n ≤ 8.
Proof.
  intros Hw Hh Hd. rewrite (sum_neighbors_count s g w h) by done.
  eexists. split; [done|]. apply live_count_bounds.
Qed.

Lemma neighbor_count_bounds_witness :
  0 < 3 ∧ has_dims sample_store blinker 3 3 = true ∧
  ∃ n, sum_neighbors sample_store blinker (Point.mk 7 (-2)) dirs = Ok n ∧ 0 ≤ n ≤ 8.
Proof.
  split; [lia|]. split; [reflexivity|].
  apply (neighbor_count_bounds sample_store blinker 3 3 (Point.mk 7 (-2)));
    [lia|lia|reflexivity].
Defined.

Lemma live_count_uniform (s : store) (g : Grid.t) (w h x y : Z) (b : bool) :
  0 < w → 0 < h →
  (∀ x y, 0 ≤ x < w → 0 ≤ y < h → cell s g x y = Some b) →
  live_count s g w h x y = 8 * Z.b2z b.
Proof.
  intros Hw Hh Hall. unfold live_count. change 8 with (len offsets).
  induction offsets as [|[dx dy] ds IH]; [done|].
  assert (len ((dx, dy) :: ds) = Z.succ (len ds)) as -> by apply Nat2Z.inj_succ.
  simpl. rewrite IH, Hall by (by apply Z.mod_pos_bound). simpl. lia.
Qed.

(** X21.  A grid whose cells are all in one state, all dead or all live,
    is all dead one step later, whatever its dimensions: on the torus a
    cell of the all-live grid has eight live neighbours. *)
Theorem uniform_grid_dies (s : store) (g h : Grid.t) (w hh : Z) (b : bool) :
  0 < w → 0 < hh →
  has_dims s g w hh = true → has_dims s h w hh = true → separate g h →
  (∀ x y, 0 ≤ x < w → 0 ≤ y < hh → cell s g x y = Some b) →
  ∃ s', nextgen s g h = Ok (s', h) ∧
        ∀ x y, 0 ≤ x < w → 0 ≤ y < hh → cell s' h x y = Some DEAD.
Proof.
  intros Hw Hh Hdg Hdh Hsep Hall.
  destruct (nextgen_separate s g h w hh) as (s' & Hrun & _ & _ & _ & Hcell); try done.
  exists s'. split; [done|]. intros x y Hx Hy. rewrite Hcell by done. f_equal.
  unfold next_state. rewrite (live_count_uniform s g w hh x y b) by done.
  by destruct b.
Qed.

Lemma uniform_grid_dies_witness :
  0 < 3 ∧ has_dims sample_store buffer 3 3 = true ∧
  has_dims sample_store blinker 3 3 = true ∧ separate buffer blinker ∧
  (∀ x y, 0 ≤ x < 3 → 0 ≤ y < 3 → cell sample_store buffer x y = Some LIVE) ∧
  ∃ s', nextgen sample_store buffer blinker = Ok (s', blinker) ∧
        cell s' blinker 1 1 = Some DEAD.
Proof.
  assert (separate buffer blinker) as Hsep by (split; compute_done).
  assert (∀ x y, 0 ≤ x < 3 → 0 ≤ y < 3 → cell sample_store buffer x y = Some LIVE)
    as Hall.
  { intros x y Hx Hy.
    assert (x = 0 ∨ x = 1 ∨ x = 2) as [->|[->| ->]] by lia;
      assert (y = 0 ∨ y = 1 ∨ y = 2) as [->|[->| ->]] by lia; reflexivity. }
  split; [lia|]. split; [reflexivity|]. split; [reflexivity|].
  split; [exact Hsep|]. split; [exact Hall|].
  destruct (uniform_grid_dies sample_store buffer blinker 3 3 LIVE)
    as (s' & Hrun & Hdead); [lia|lia|reflexivity|reflexivity|exact Hsep|exact Hall|].
  exists s'. split; [done|]. apply Hdead; lia.
Defined.

(** X22.  Two buffers in alternation.  With two grids of the same
    dimensions whose rows are all distinct objects, [nextgen(g, h)]
    followed by [nextgen(h, g)] succeeds; the second call leaves in [h]
    the first generation and puts in [g] the rule applied to it, the
    second generation. *)
Theorem two_buffers_alternate (s : store) (g h : Grid.t) (w hh : Z) :
  0 < w → 0 < hh →
  has_dims s g w hh = true → has_dims s h w hh = true →
  NoDup (Grid.cells g) → NoDup (Grid.cells h) →
  (∀ row, row ∈ Grid.cells g → row ∉ Grid.cells h) →
  ∃ s1 s2,
    nextgen s g h = Ok (s1, h) ∧
    nextgen s1 h g = Ok (s2, g) ∧
    ∀ x y, 0 ≤ x < w → 0 ≤ y < hh →
      cell s1 h x y = Some (next_state s g w hh x y) ∧
      cell s2 h x y = cell s1 h x y ∧
      cell s2 g x y = Some (next_state s1 h w hh x y).
Proof.
  intros Hw Hh Hdg Hdh Hng Hnh Hdisj.
  assert (separate g h) as Hsep1 by (split; [done|by apply Forall_forall]).
  assert (separate h g) as Hsep2.
  { split; [done|]. apply Forall_forall. intros row Hrow Hrow'. by apply (Hdisj row). }
  destruct (nextgen_separate s g h w hh) as (s1 & Hrun1 & Hd1g & Hd1h & _ & Hcell1);
    try done.
  destruct (nextgen_separate s1 h g w hh) as (s2 & Hrun2 & _ & _ & Hframe2 & Hcell2);
    try done.
  exists s1, s2. split; [done|]. split; [done|].
  intros x y Hx Hy. split; [by apply Hcell1|]. split; [|by apply Hcell2].
  apply cell_same_rows. intros row Hrow. apply Hframe2.
  intros Hrow'. by apply (Hdisj row).
Qed.

Lemma two_buffers_alternate_witness :
  0 < 3 ∧ has_dims sample_store blinker 3 3 = true ∧
  has_dims sample_store buffer 3 3 = true ∧
  NoDup (Grid.cells blinker) ∧ NoDup (Grid.cells buffer) ∧
  (∀ row, row ∈ Grid.cells blinker → row ∉ Grid.cells buffer) ∧
  ∃ s1 s2, nextgen sample_store blinker buffer = Ok (s1, buffer) ∧
           nextgen s1 buffer blinker = Ok (s2, blinker).
Proof.
  assert (NoDup (Grid.cells blinker)) as H1 by compute_done.
  assert (NoDup (Grid.cells buffer)) as H2 by compute_done.
  assert (∀ row, row ∈ Grid.cells blinker → row ∉ Grid.cells buffer) as H3.
  { assert (Forall (fun row => row ∉ Grid.cells buffer) (Grid.cells blinker)) as HF
      by compute_done.
    by apply Forall_forall. }
  split; [lia|]. split; [reflexivity|]. split; [reflexivity|].
  split; [exact H1|]. split; [exact H2|]. split; [exact H3|].
  destruct (two_buffers_alternate sample_store blinker buffer 3 3)
    as (s1 & s2 & Hr1 & Hr2 & _);
    [lia|lia|reflexivity|reflexivity|exact H1|exact H2|exact H3|].
  by exists s1, s2.
Defined.

(** *** The generation step: what it never touches *)

Lemma writes_within_refl (g : Grid.t) (s : store) : writes_within g s s.
Proof. split; [done|]. by intros row. Qed.

Lemma writes_within_trans (g : Grid.t) (s1 s2 s3 : store) :
  writes_within g s1 s2 → writes_within g s2 s3 → writes_within g s1 s3.
Proof.
  intros [Hl1 H1] [Hl2 H2]. split; [congruence|]. intros row.
  destruct (H1 row) as [Ha Hb], (H2 row) as [Hc Hd].
  split; [congruence|]. intros Hrow. rewrite Hd, Hb; done.
Qed.

Lemma Grid_setitem_within (s s' : store) (g : Grid.t) (p : Point.t) (v : bool) :
  Grid.setitem s g p v = Ok s' → writes_within g s s'.
Proof.
  intros (row & l & l' & Hin & Hl & Hlen & ->)%Grid_setitem_inv.
  split; [apply length_insert|]. intros row'.
  destruct (decide (row = row')) as [<-|Hne].
  - rewrite list_lookup_insert_eq by (by eapply lookup_lt_Some).
    rewrite Hl. simpl. split; [by rewrite Hlen|done].
  - by rewrite list_lookup_insert_ne.
Qed.

Lemma nextgen_cell_within (s s' : store) (g1 g2 : Grid.t) (p : Point.t) :
  nextgen_cell s g1 g2 p = Ok s' → writes_within g2 s s'.
Proof.
  unfold nextgen_cell.
  destruct (sum_neighbors s g1 p dirs) as [n|e]; [|done]. simpl.
  destruct ((n <? 2) || (n >? 3)); [apply Grid_setitem_within|].
  destruct (n =? 3); [apply Grid_setitem_within|].
  destruct (Grid.getitem s g1 p) as [c|e]; [|done]. apply Grid_setitem_within.
Qed.

Lemma nextgen_row_within (g1 g2 : Grid.t) (y : Z) (xs : list Z) :
  ∀ s s', nextgen_row s g1 g2 y xs = Ok s' → writes_within g2 s s'.
Proof.
  induction xs as [|x xs IH]; intros s s'; simpl.
  - intros [= <-]. apply writes_within_refl.
  - destruct (nextgen_cell s g1 g2 (Point.mk x y)) as [s1|e] eqn:Hcell; [|done].
    simpl. intros Hrest. eapply writes_within_trans.
    + by eapply nextgen_cell_within.
    + by apply IH.
Qed.

Lemma nextgen_rows_within (g1 g2 : Grid.t) (rows : list (Z * loc)) :
  ∀ s s', nextgen_rows s g1 g2 rows = Ok s' → writes_within g2 s s'.
Proof.
  induction rows as [|[y row] rows IH]; intros s s'; simpl.
  - intros [= <-]. apply writes_within_refl.
  - destruct (deref s row) as [l|e]; [|done]. simpl.
    destruct (nextgen_row s g1 g2 y (range (len l))) as [s1|e] eqn:Hrow; [|done].
    simpl. intros Hrest. eapply writes_within_trans.
    + by eapply nextgen_row_within.
    + by apply IH.
Qed.

(** X23.  Whatever the two grids are, of equal dimensions or not, sharing
    rows or not: when [nextgen] returns, it returns its second argument;
    it has added and removed no row, changed the length of no row, and
    changed no row other than those of its second argument. *)
Theorem nextgen_writes_only_grid2 (s s' : store) (grid1 grid2 g : Grid.t) :
  nextgen s grid1 grid2 = Ok (s', g) →
  g = grid2 ∧
  length s' = length s ∧
  ∀ row, length <$> s' !! row = length <$> s !! row ∧
         (row ∉ Grid.cells grid2 → s' !! row = s !! row).
Proof.
  unfold nextgen.
  destruct (nextgen_rows s grid1 grid2 (enumerate (Grid.cells grid1))) as [s1|e] eqn:Hrows;
    [|done].
  simpl. intros [= <- <-]. split; [done|].
  by apply nextgen_rows_within in Hrows.
Qed.

Lemma nextgen_writes_only_grid2_witness :
  nextgen [[LIVE; LIVE]; [DEAD]] (Grid.mk None None [0%nat]) (Grid.mk None None [1%nat])
    = Ok ([[LIVE; LIVE]; [DEAD]], Grid.mk None None [1%nat]) ∧
  length [[LIVE; LIVE]; [DEAD]] = length [[LIVE; LIVE]; [DEAD]].
Proof.
  assert (nextgen [[LIVE; LIVE]; [DEAD]] (Grid.mk None None [0%nat])
            (Grid.mk None None [1%nat])
          = Ok ([[LIVE; LIVE]; [DEAD]], Grid.mk None None [1%nat])) as H by reflexivity.
  split; [exact H|].
  exact (proj1 (proj2 (nextgen_writes_only_grid2 _ _ _ _ _ H))).
Defined.

Lemma Grid_setitem_no_cell (s : store) (g : Grid.t) (w h : Z) (p : Point.t) (v : bool) :
  has_dims s g w h = true → w = 0 ∨ h = 0 →
  Grid.setitem s g p v = Raise ZeroDivisionError.
Proof.
  intros Hd Hzero. pose proof (has_dims_len _ _ _ _ Hd) as Hlen.
  unfold Grid.setitem.
  destruct (getitem (Grid.cells g) (Point.y p)) as [row|e] eqn:Hget.
  - apply getitem_elem in Hget.
    destruct (has_dims_elem _ _ _ _ row Hd Hget) as (l & Hl & Hlw).
    simpl. unfold deref. rewrite Hl. simpl.
    destruct Hzero as [->| ->].
    + apply len_nil_inv in Hlw as ->. done.
    + rewrite (len_nil_inv _ Hlen) in Hget. by apply elem_of_nil in Hget.
  - destruct (decide (len (Grid.cells g) = 0)) as [H0|Hne].
    + rewrite (len_nil_inv _ H0) in Hget. simpl in Hget. by injection Hget as <-.
    + pose proof (len_nonneg (Grid.cells g)).
      destruct (getitem_nonempty (Grid.cells g) (Point.y p)) as (row & _ & Hrow); [lia|].
      congruence.
Qed.

Lemma nextgen_rows_no_cell (s : store) (g1 g2 : Grid.t) (rows : list loc) (y0 : Z) :
  Forall (fun row => s !! row = Some []) rows →
  nextgen_rows s g1 g2 (enumerate_from y0 rows) = Ok s.
Proof.
  intros Hrows. revert y0. induction Hrows as [|row rows Hrow _ IH]; intros y0; [done|].
  simpl. unfold deref. rewrite Hrow. simpl. apply IH.
Qed.

(** X24.  Grids without a cell.  When the first grid has no cell (no row,
    or rows without a column), [nextgen] returns the second grid and
    changes nothing, whatever the second grid is.  When the first grid
    has a cell and the second has none, [nextgen] raises
    [ZeroDivisionError]. *)
Theorem nextgen_without_cells (s : store) (grid1 grid2 : Grid.t) (w h w2 h2 : Z) :
  has_dims s grid1 w h = true →
  (w = 0 ∨ h = 0 → nextgen s grid1 grid2 = Ok (s, grid2)) ∧
  (0 < w → 0 < h → has_dims s grid2 w2 h2 = true → w2 = 0 ∨ h2 = 0 →
     nextgen s grid1 grid2 = Raise ZeroDivisionError).
Proof.
  intros Hd. pose proof (has_dims_len _ _ _ _ Hd) as Hlen. split.
  - intros Hzero. unfold nextgen, enumerate. rewrite nextgen_rows_no_cell; [done|].
    apply Forall_forall. intros row Hrow.
    destruct (has_dims_elem _ _ _ _ row Hd Hrow) as (l & Hl & Hlw).
    destruct Hzero as [->| ->].
    + by apply len_nil_inv in Hlw as ->.
    + rewrite (len_nil_inv _ Hlen) in Hrow. by apply elem_of_nil in Hrow.
  - intros Hw Hh Hd2 Hzero. unfold nextgen, enumerate.
    destruct (Grid.cells grid1) as [|row rows] eqn:Hcells.
    { unfold len in Hlen. simpl in Hlen. lia. }
    destruct (has_dims_elem _ _ _ _ row Hd) as (l & Hl & Hlw).
    { rewrite Hcells. by left. }
    cbn [enumerate_from nextgen_rows]. unfold deref. rewrite Hl. cbn [mbind result_bind].
    rewrite Hlw. unfold range. rewrite seqZ_cons by lia. cbn [nextgen_row].
    assert (nextgen_cell s grid1 grid2 (Point.mk 0 0) = Raise ZeroDivisionError) as ->;
      [|done].
    unfold nextgen_cell. rewrite (sum_neighbors_count s grid1 w h) by done.
    cbn [mbind result_bind].
    destruct (Grid_getitem_wrap s grid1 w h (Point.mk 0 0) Hw Hh Hd) as (c & _ & ->).
    cbn [mbind result_bind].
    rewrite !(Grid_setitem_no_cell s grid2 w2 h2) by done.
    by repeat case_match.
Qed.

Lemma nextgen_without_cells_witness :
  has_dims sample_store blinker 3 3 = true ∧ 0 < 3 ∧
  has_dims sample_store (Grid.mk None None []) 0 0 = true ∧
  nextgen sample_store blinker (Grid.mk None None []) = Raise ZeroDivisionError.
Proof.
  split; [reflexivity|]. split; [lia|]. split; [reflexivity|].
  apply (proj2 (nextgen_without_cells sample_store blinker (Grid.mk None None [])
                  3 3 0 0 eq_refl)); [lia|lia|reflexivity|by left].
Defined.

(** X25.  The neighbourhood.  [dirs] holds eight distinct offsets, the
    null offset is not one of them, and it is symmetric: [q] is reached
    from [p] by an offset exactly when [p] is reached from [q] by one. *)
Theorem dirs_symmetric (p q : Point.t) :
  NoDup dirs ∧ length dirs = 8%nat ∧ (Point.mk 0 0 ∉ dirs) ∧
  ((∃ d, d ∈ dirs ∧ q = Point.add p d) ↔ (∃ d, d ∈ dirs ∧ p = Point.add q d)).
Proof.
  split; [compute_done|]. split; [done|]. split; [compute_done|].
  assert (∀ a b : Point.t, (∃ d, d ∈ dirs ∧ b = Point.add a d) →
                           (∃ d, d ∈ dirs ∧ a = Point.add b d)) as Hsym.
  { intros [ax ay] [bx by'] (d & Hd & Hb).
    exists (Point.mk (- Point.x d) (- Point.y d)). split.
    - unfold dirs in *. simpl in *.
      repeat (apply elem_of_cons in Hd as [->|Hd]; [compute_done|]).
      by apply elem_of_nil in Hd.
    - unfold Point.add in *. simpl in *. injection Hb as -> ->. f_equal; lia. }
  split; apply Hsym.
Qed.
